(** * Trading terminal backend: options chain, IV surface and term structure

    A shallow embedding of [trading-terminal-backend.py].  The three
    endpoints that reshape an options chain ([options], [iv_surface],
    [term_structure]) are translated statement by statement:
    - Python floats (and the float64 cells of the provider's DataFrames) are
      Rocq's primitive binary64 floats, so comparisons, [strike / price],
      [strike - price] and [abs] are the IEEE operations the interpreter runs;
    - an exception is a value of [exn]; code that may raise lives in [res];
      the loops that append to a list while rows may raise live in the
      state-and-exception monad [M], whose state survives a raise exactly as
      a Python list keeps what was appended before the exception;
    - the [yf.Ticker] object is the record [ticker_obj]: what each call on it
      returns or raises during one request;
    - [term_map] is a [gmap string float].

    [quote] and the ticker symbol table follow the scenarios.

    Left out: the Flask routing, the [health] endpoint, and the ['ticker'],
    ['timestamp'] and ['source'] keys of the JSON bodies. *)

From Stdlib Require Import ZArith Floats Uint63 Lia List Bool.
From stdpp Require Import base option list gmap strings.

Set Warnings "-inexact-float".
Local Open Scope Z_scope.

(** ** Exceptions and the two monads *)

Inductive exn : Type :=
  | TypeError
  | ValueError
  | KeyError
  | OverflowError
  | ZeroDivisionError
  | AttributeError
  | ProviderError (msg : string).

Inductive res (A : Type) : Type :=
  | Ok (a : A)
  | Raise (e : exn).
Arguments Ok {A} a.
Arguments Raise {A} e.

(** [M S A]: a computation over a mutable object of type [S] (the list
    being appended to) that returns an [A] or raises; the object is
    returned in both cases. *)
Definition M (S A : Type) : Type := S -> res A * S.

Definition ret {S A : Type} (a : A) : M S A := fun s => (Ok a, s).

Definition bind {S A B : Type} (m : M S A) (k : A -> M S B) : M S B :=
  fun s =>
    match m s with
    | (Ok a, s') => k a s'
    | (Raise e, s') => (Raise e, s')
    end.

Definition lift {S A : Type} (r : res A) : M S A := fun s => (r, s).

Notation "x <- m ;; k" := (bind m (fun x => k))
  (at level 100, m at level 99, k at level 200, right associativity).
Notation "x <-- r ;; k" := (bind (lift r) (fun x => k))
  (at level 100, r at level 99, k at level 200, right associativity).

(** [lst.append(x)] *)
Definition append {A : Type} (x : A) : M (list A) unit :=
  fun s => (Ok tt, s ++ [x]).

(** [for x in l: body] -- an exception in the body leaves the loop. *)
Fixpoint for_each {S A : Type} (body : A -> M S unit) (l : list A) : M S unit :=
  match l with
  | [] => ret tt
  | x :: l' => _ <- body x ;; for_each body l'
  end.

(** [try: body / except Exception: continue] as the whole body of a loop. *)
Definition try_continue {S : Type} (body : M S unit) : M S unit :=
  fun s => (Ok tt, snd (body s)).

(** Running a block on an object and keeping the object. *)
Definition exec {S A : Type} (m : M S A) (s : S) : S := snd (m s).

(** [data = []] followed by a block that fills it: the list when the block
    completes, the exception when it raises (the local list is then lost). *)
Definition fill {A : Type} (m : M (list A) unit) : res (list A) :=
  match m [] with
  | (Ok _, data) => Ok data
  | (Raise e, _) => Raise e
  end.

(** ** Python numbers *)

(** [float.__bool__]: false exactly for [0.0] and [-0.0]; NaN is truthy. *)
Definition float_truthy (x : float) : bool := negb (PrimFloat.eqb x 0%float).

(** [a / b] on Python floats. *)
Definition py_truediv (a b : float) : res float :=
  if PrimFloat.eqb b 0%float then Raise ZeroDivisionError
  else Ok (PrimFloat.div a b).

(** The nearest integer to [num / den] ([den > 0]), ties to even. *)
Definition round_half_even (num den : Z) : Z :=
  let q := num / den in
  let r := num mod den in
  if 2 * r <? den then q
  else if den <? 2 * r then q + 1
  else if Z.even q then q else q + 1.

(** [round(x, 4)] on a Python float: the exact binary value is rounded to
    four decimal places, half to even, and the decimal result is converted to
    the nearest double.  NaN, the infinities, zeros and integers round to
    themselves.  With [n] the rounded value in units of 1e-4, [n / 10000] is
    the quotient of two exactly represented numbers as long as [n < 2^53];
    beyond that the spacing of doubles exceeds 1e-4 and the nearest double
    is [x] itself. *)
Definition py_round4 (x : float) : float :=
  match Prim2SF x with
  | S754_finite s m e =>
      if 0 <=? e then x
      else
        let n := round_half_even (Z.pos m * 10000) (2 ^ (- e)) in
        if n <? 2 ^ 53 then
          let r := PrimFloat.div (PrimFloat.of_uint63 (Uint63.of_Z n)) 10000%float in
          if s then PrimFloat.opp r else r
        else x
  | _ => x
  end.

(** [int(x)] on a float: truncation toward zero. *)
Definition py_int_of_float (x : float) : res Z :=
  match Prim2SF x with
  | S754_zero _ => Ok 0
  | S754_finite s m e =>
      let a := if 0 <=? e then Z.pos m * 2 ^ e else Z.pos m / 2 ^ (- e) in
      Ok (if s then - a else a)
  | S754_infinity _ => Raise OverflowError
  | S754_nan => Raise ValueError
  end.

(** A JSON number as Python holds it: the [else 0] branches produce the
    [int] 0, the others a [float]. *)
Inductive pynum : Type :=
  | PyInt (z : Z)
  | PyFloat (f : float).

(** [a == b] between an [int] small enough to be a double and a [float]. *)
Definition pynum_eqb (a b : pynum) : bool :=
  match a, b with
  | PyInt x, PyInt y => x =? y
  | PyInt x, PyFloat f | PyFloat f, PyInt x =>
      PrimFloat.eqb (PrimFloat.of_uint63 (Uint63.of_Z (Z.abs x)))
                    (if x <? 0 then PrimFloat.opp f else f)
  | PyFloat f, PyFloat g => PrimFloat.eqb f g
  end.

(** [a > 0] *)
Definition pynum_gt0 (a : pynum) : bool :=
  match a with
  | PyInt x => 0 <? x
  | PyFloat f => PrimFloat.ltb 0%float f
  end.

(** ** The provider's data *)

(** A cell of a chain DataFrame: a float64, or [None] in an object column
    (a quote with a non-numeric field). *)
Inductive cell : Type :=
  | CNum (f : float)
  | CNone.

(** [float(c)] *)
Definition py_float (c : cell) : res float :=
  match c with
  | CNum f => Ok f
  | CNone => Raise TypeError
  end.

(** [math.isnan(c)] *)
Definition math_isnan (c : cell) : res bool :=
  match c with
  | CNum f => Ok (PrimFloat.is_nan f)
  | CNone => Raise TypeError
  end.

(** One row of [chain.calls] or [chain.puts]. *)
Record row : Type := {
  strike : cell;
  lastPrice : cell;
  bid : cell;
  ask : cell;
  volume : cell;
  openInterest : cell;
  impliedVolatility : cell
}.

(** A DataFrame: its rows in index order, labelled by position. *)
Record option_chain : Type := {
  calls : list row;
  puts : list row
}.

(** The [yf.Ticker] object [t] during one request. *)
Record ticker_obj : Type := {
  (** [t.options] *)
  t_options : res (list string);
  (** [t.fast_info.last_price], [None] or a float *)
  t_last_price : res (option float);
  (** [t.history(period='1d')]: [None] when the frame is empty, otherwise
      [float(hist['Close'].iloc[-1])] *)
  t_history_close : res (option float);
  (** [(datetime.strptime(exp_date, '%Y-%m-%d') - datetime.now()).days] *)
  days_to : string -> res Z;
  (** [t.option_chain(exp_date)] *)
  t_option_chain : string -> res option_chain
}.

(** [price = None / try: price = t.fast_info.last_price / except Exception:
    hist = t.history(period='1d'); if not hist.empty: price = float(...)] *)
Definition resolve_price (t : ticker_obj) : res (option float) :=
  match t_last_price t with
  | Ok p => Ok p
  | Raise _ => t_history_close t
  end.

(** The float [price] is when [not price] is false: [None] and the zeros
    are falsy. *)
Definition truthy_price (price : option float) : option float :=
  match price with
  | None => None
  | Some p => if float_truthy p then Some p else None
  end.

(** ** [/api/options] *)

(** The dict built for one row. *)
Record option_quote : Type := {
  q_strike : float;
  q_lastPrice : pynum;
  q_bid : pynum;
  q_ask : pynum;
  q_volume : pynum;
  q_openInterest : pynum;
  q_impliedVolatility : pynum
}.

(** [float(c) if not math.isnan(c) else 0] *)
Definition float_or_0 (c : cell) : res pynum :=
  match math_isnan c with
  | Raise e => Raise e
  | Ok true => Ok (PyInt 0)
  | Ok false =>
      match py_float c with
      | Ok f => Ok (PyFloat f)
      | Raise e => Raise e
      end
  end.

(** [int(c) if not math.isnan(c) else 0] *)
Definition int_or_0 (c : cell) : res pynum :=
  match math_isnan c with
  | Raise e => Raise e
  | Ok true => Ok (PyInt 0)
  | Ok false =>
      match c with
      | CNum f =>
          match py_int_of_float f with
          | Ok z => Ok (PyInt z)
          | Raise e => Raise e
          end
      | CNone => Raise TypeError
      end
  end.

Definition quote_of_row (r : row) : M (list option_quote) unit :=
  k <-- py_float (strike r) ;;
  lp <-- float_or_0 (lastPrice r) ;;
  b <-- float_or_0 (bid r) ;;
  a <-- float_or_0 (ask r) ;;
  v <-- int_or_0 (volume r) ;;
  oi <-- int_or_0 (openInterest r) ;;
  iv <-- float_or_0 (impliedVolatility r) ;;
  append {| q_strike := k; q_lastPrice := lp; q_bid := b; q_ask := a;
            q_volume := v; q_openInterest := oi; q_impliedVolatility := iv |}.

Record chain_entry : Type := {
  c_expiration : string;
  c_dte : Z;
  c_calls : list option_quote;
  c_puts : list option_quote
}.

(** The body of [try] for one expiration; [calls_data] and [puts_data] are
    local lists, appended to [chains] only once both are complete. *)
Definition options_expiration (t : ticker_obj) (exp_date : string)
  : M (list chain_entry) unit :=
  chain <-- t_option_chain t exp_date ;;
  calls_data <-- fill (for_each quote_of_row (calls chain)) ;;
  puts_data <-- fill (for_each quote_of_row (puts chain)) ;;
  dte <-- days_to t exp_date ;;
  append {| c_expiration := exp_date; c_dte := dte;
            c_calls := calls_data; c_puts := puts_data |}.

Inductive options_response : Type :=
  | OptionsError (error : string)
      (* 200: {'error': error, 'expirations': []} *)
  | OptionsData (expirations : list string) (chains : list chain_entry)
      (* 200 *)
  | OptionsFailure (e : exn).
      (* 500: {'error': str(e)} *)

Definition options (t : ticker_obj) : options_response :=
  match t_options t with
  | Raise e => OptionsFailure e
  | Ok expirations =>
      match expirations with
      | [] => OptionsError "No options data available"
      | _ =>
          let chains :=
            exec (for_each (fun exp_date =>
                              try_continue (options_expiration t exp_date))
                           (take 4 expirations)) [] in
          OptionsData (take 8 expirations) chains
      end
  end.

(** ** [/api/iv-surface] *)

Inductive option_type : Type := call | put.

Record surface_point : Type := {
  p_strike : float;
  p_moneyness : float;
  p_dte : Z;
  p_iv : float;
  p_type : option_type
}.

(** [0.8 <= moneyness <= 1.2 and iv > 0] *)
Definition in_band_with_iv (moneyness iv : float) : bool :=
  PrimFloat.leb 0.8%float moneyness && PrimFloat.leb moneyness 1.2%float
  && PrimFloat.ltb 0%float iv.

(** The body of [for _, row in chain.calls.iterrows()] (and of the loop over
    the puts, with ['type': 'put']).  The [int] 0 of the [else] branch is
    only compared with 0, as the float 0 is. *)
Definition surface_row (price : float) (dte : Z) (ty : option_type) (r : row)
  : M (list surface_point) unit :=
  k <-- py_float (strike r) ;;
  missing <-- math_isnan (impliedVolatility r) ;;
  iv <-- (if negb missing then py_float (impliedVolatility r) else Ok 0%float) ;;
  moneyness <-- py_truediv k price ;;
  if in_band_with_iv moneyness iv then
    append {| p_strike := k; p_moneyness := py_round4 moneyness; p_dte := dte;
              p_iv := py_round4 iv; p_type := ty |}
  else ret tt.

(** The body of [try] for one expiration. *)
Definition surface_expiration (t : ticker_obj) (price : float) (exp_date : string)
  : M (list surface_point) unit :=
  dte <-- days_to t exp_date ;;
  if dte <=? 0 then ret tt
  else
    chain <-- t_option_chain t exp_date ;;
    _ <- for_each (surface_row price dte call) (calls chain) ;;
    for_each (surface_row price dte put) (puts chain).

Inductive surface_response : Type :=
  | SurfaceError (error : string)
      (* 200: {'error': error, 'surface': []} *)
  | SurfaceData (spot : float) (surface : list surface_point)
      (* 200: {'spot': spot, 'surface': surface} *)
  | SurfaceFailure (e : exn).
      (* 500: {'error': str(e)} *)

Definition iv_surface (t : ticker_obj) : surface_response :=
  match t_options t with
  | Raise e => SurfaceFailure e
  | Ok [] => SurfaceError "No options data"
  | Ok expirations =>
      match resolve_price t with
      | Raise e => SurfaceFailure e
      | Ok price =>
          match truthy_price price with
          | None => SurfaceError "Cannot determine spot price"
          | Some spot =>
              let surface :=
                exec (for_each (fun exp_date =>
                                  try_continue (surface_expiration t spot exp_date))
                               (take 6 expirations)) [] in
              SurfaceData spot surface
          end
      end
  end.

(** The ['surface'] key of a body, when it has one. *)
Definition surface_of (r : surface_response) : option (list surface_point) :=
  match r with
  | SurfaceError _ => Some []
  | SurfaceData _ surface => Some surface
  | SurfaceFailure _ => None
  end.

(** ** [/api/term-structure] *)

(** *** The pandas operations it uses *)

(** [series.notna()]: neither NaN nor [None]; it never raises. *)
Definition notna (c : cell) : bool :=
  match c with
  | CNum f => negb (PrimFloat.is_nan f)
  | CNone => false
  end.

(** One element of [series > 0]: pandas compares a [None] of an object
    column as missing, so that element is [False] and nothing is raised. *)
Definition cell_gt0 (c : cell) : res bool :=
  match c with
  | CNum f => Ok (PrimFloat.ltb 0%float f)
  | CNone => Ok false
  end.

(** One element of [series - price]: pandas leaves NaN where the cell is
    [None], and nothing is raised. *)
Definition cell_sub (price : float) (c : cell) : res float :=
  match c with
  | CNum f => Ok (PrimFloat.sub f price)
  | CNone => Ok PrimFloat.nan
  end.

(** An elementwise operation over a column: the first raising element
    raises for the whole expression. *)
Fixpoint elementwise {A B : Type} (f : A -> res B) (l : list A) : res (list B) :=
  match l with
  | [] => Ok []
  | x :: l' =>
      match f x with
      | Raise e => Raise e
      | Ok y =>
          match elementwise f l' with
          | Raise e => Raise e
          | Ok ys => Ok (y :: ys)
          end
      end
  end.

(** [frame[mask]] *)
Fixpoint select {A : Type} (rows : list A) (mask : list bool) : list A :=
  match rows, mask with
  | r :: rows', b :: mask' =>
      if b then r :: select rows' mask' else select rows' mask'
  | _, _ => []
  end.

(** The scan behind [idxmin]: [best] is the position and value of the
    smallest number seen so far; a later value replaces it only if strictly
    smaller, and NaN is skipped. *)
Fixpoint idxmin_from (best : option (nat * float)) (i : nat) (l : list float)
  : option (nat * float) :=
  match l with
  | [] => best
  | x :: l' =>
      let best' :=
        if PrimFloat.is_nan x then best
        else
          match best with
          | None => Some (i, x)
          | Some (_, b) => if PrimFloat.ltb x b then Some (i, x) else best
          end in
      idxmin_from best' (S i) l'
  end.

(** [series.idxmin()]: the label of the first occurrence of the minimum,
    NaN excluded; it raises on a series with no number in it. *)
Definition idxmin (l : list float) : res nat :=
  match idxmin_from None 0%nat l with
  | Some (i, _) => Ok i
  | None => Raise ValueError
  end.

(** [frame.empty] *)
Definition empty_frame {A : Type} (rows : list A) : bool :=
  match rows with
  | [] => true
  | _ => false
  end.

(** [frame.loc[label, column]] *)
Definition loc (rows : list row) (label : nat) (column : row -> cell) : res cell :=
  match rows !! label with
  | Some r => Ok (column r)
  | None => Raise KeyError
  end.

(** *** The endpoint *)

Record term_entry : Type := {
  e_expiration : string;
  e_dte : Z;
  e_atm_iv : float;
  e_atm_strike : float
}.

(** The body of [try] for one expiration. *)
Definition term_expiration (t : ticker_obj) (price : float) (exp_date : string)
  : M (list term_entry) unit :=
  dte <-- days_to t exp_date ;;
  if dte <=? 0 then ret tt
  else
    chain <-- t_option_chain t exp_date ;;
    let calls := calls chain in
    if empty_frame calls then ret tt
    else
      positive <-- elementwise cell_gt0 (map impliedVolatility calls) ;;
      let calls_valid :=
        select calls (zip_with andb (map notna (map impliedVolatility calls)) positive) in
      if empty_frame calls_valid then ret tt
      else
        diff <-- elementwise (cell_sub price) (map strike calls_valid) ;;
        atm_idx <-- idxmin (map PrimFloat.abs diff) ;;
        iv_cell <-- loc calls_valid atm_idx impliedVolatility ;;
        atm_iv <-- py_float iv_cell ;;
        strike_cell <-- loc calls_valid atm_idx strike ;;
        atm_strike <-- py_float strike_cell ;;
        append {| e_expiration := exp_date; e_dte := dte;
                  e_atm_iv := py_round4 atm_iv; e_atm_strike := atm_strike |}.

(** [key not in term_map] *)
Definition not_in (key : string) (term_map : gmap string float) : bool :=
  match term_map !! key with
  | None => true
  | Some _ => false
  end.

(** The body of [for entry in raw_term]: the [if]/[elif] chain. *)
Definition bucket_entry (term_map : gmap string float) (entry : term_entry)
  : gmap string float :=
  let dte := e_dte entry in
  if (dte <=? 10) && not_in "1W" term_map then
    <["1W" := e_atm_iv entry]> term_map
  else if (10 <? dte) && (dte <=? 20) && not_in "2W" term_map then
    <["2W" := e_atm_iv entry]> term_map
  else if (20 <? dte) && (dte <=? 45) && not_in "1M" term_map then
    <["1M" := e_atm_iv entry]> term_map
  else if (45 <? dte) && (dte <=? 75) && not_in "2M" term_map then
    <["2M" := e_atm_iv entry]> term_map
  else if (75 <? dte) && (dte <=? 120) && not_in "3M" term_map then
    <["3M" := e_atm_iv entry]> term_map
  else if (120 <? dte) && not_in "6M" term_map then
    <["6M" := e_atm_iv entry]> term_map
  else term_map.

(** [term_map = {}] and the loop over [raw_term]. *)
Definition tenor_buckets (raw_term : list term_entry) : gmap string float :=
  fold_left bucket_entry raw_term ∅.

Inductive term_response : Type :=
  | TermError (error : string)
      (* 200: {'error': error, 'term_structure': {}} *)
  | TermData (spot : float) (term_map : gmap string float) (raw : list term_entry)
      (* 200: {'spot': spot, 'term_structure': term_map, 'raw': raw} *)
  | TermFailure (e : exn).
      (* 500: {'error': str(e)} *)

(** [raw_term = []] and the loop over [expirations[:8]]. *)
Definition raw_term_of (t : ticker_obj) (spot : float) (expirations : list string)
  : list term_entry :=
  exec (for_each (fun exp_date => try_continue (term_expiration t spot exp_date))
                 (take 8 expirations)) [].

Definition term_structure (t : ticker_obj) : term_response :=
  match t_options t with
  | Raise e => TermFailure e
  | Ok [] => TermError "No options data"
  | Ok expirations =>
      match resolve_price t with
      | Raise e => TermFailure e
      | Ok price =>
          match truthy_price price with
          | None => TermError "Cannot determine spot price"
          | Some spot =>
              let raw_term := raw_term_of t spot expirations in
              TermData spot (tenor_buckets raw_term) raw_term
          end
      end
  end.

(** The ['term_structure'] and ['raw'] keys of a body, when it has them. *)
Definition term_of (r : term_response) : option (gmap string float * list term_entry) :=
  match r with
  | TermError _ => Some (∅, [])
  | TermData _ term_map raw => Some (term_map, raw)
  | TermFailure _ => None
  end.


(** ** The specification's vocabulary *)

(** A quote whose strike and implied volatility are numbers (NaN included). *)
Definition numeric_quote (r : row) : bool :=
  match strike r, impliedVolatility r with
  | CNum _, CNum _ => true
  | _, _ => false
  end.

(** "Valid, strictly positive IV". *)
Definition valid_iv (r : row) : bool :=
  match impliedVolatility r with
  | CNum iv => negb (PrimFloat.is_nan iv) && PrimFloat.ltb 0%float iv
  | CNone => false
  end.

(** "A SurfacePoint is emitted iff the snapshot's days to expiration are
    positive, the IV is valid and strictly positive, and the moneyness
    strike / spot lies in [0.8, 1.2]". *)
Definition emits (spot : float) (dte : Z) (k iv : float) : bool :=
  (0 <? dte) && negb (PrimFloat.is_nan iv) && PrimFloat.ltb 0%float iv
  && PrimFloat.leb 0.8%float (PrimFloat.div k spot)
  && PrimFloat.leb (PrimFloat.div k spot) 1.2%float.

(** The SurfacePoint of a quote, if it emits one. *)
Definition quote_point (spot : float) (dte : Z) (ty : option_type) (r : row)
  : option surface_point :=
  match strike r, impliedVolatility r with
  | CNum k, CNum iv =>
      if emits spot dte k iv then
        Some {| p_strike := k; p_moneyness := py_round4 (PrimFloat.div k spot);
                p_dte := dte; p_iv := py_round4 iv; p_type := ty |}
      else None
  | _, _ => None
  end.

(** The points of one snapshot: calls before puts. *)
Definition expected_points (t : ticker_obj) (spot : float) (exp_date : string)
  : list surface_point :=
  match days_to t exp_date, t_option_chain t exp_date with
  | Ok dte, Ok chain =>
      omap (quote_point spot dte call) (calls chain)
      ++ omap (quote_point spot dte put) (puts chain)
  | _, _ => []
  end.

(** An expiration whose date parses and, unless it is skipped for its
    days to expiration, whose chain is fetched and holds numeric quotes. *)
Definition clean_expiration (t : ticker_obj) (exp_date : string) : bool :=
  match days_to t exp_date with
  | Ok dte =>
      (dte <=? 0) ||
      match t_option_chain t exp_date with
      | Ok chain => forallb numeric_quote (calls chain) && forallb numeric_quote (puts chain)
      | Raise _ => false
      end
  | Raise _ => false
  end.

(** The six tenor labels and their ranges of days to expiration. *)
Definition tenor_labels : list string := ["1W"; "2W"; "1M"; "2M"; "3M"; "6M"].

Definition tenor_range (label : string) (dte : Z) : bool :=
  if String.eqb label "1W" then dte <=? 10
  else if String.eqb label "2W" then (10 <? dte) && (dte <=? 20)
  else if String.eqb label "1M" then (20 <? dte) && (dte <=? 45)
  else if String.eqb label "2M" then (45 <? dte) && (dte <=? 75)
  else if String.eqb label "3M" then (75 <? dte) && (dte <=? 120)
  else if String.eqb label "6M" then 120 <? dte
  else false.

(** [|strike - spot|] of a quote. *)
Definition distance (spot : float) (r : row) : float :=
  match strike r with
  | CNum k => PrimFloat.abs (PrimFloat.sub k spot)
  | CNone => nan
  end.

(** The TermStructureEntry read from a call. *)
Definition entry_of (exp_date : string) (dte : Z) (r : row) : option term_entry :=
  match strike r, impliedVolatility r with
  | CNum k, CNum iv =>
      Some {| e_expiration := exp_date; e_dte := dte;
              e_atm_iv := py_round4 iv; e_atm_strike := k |}
  | _, _ => None
  end.

(** Position [i] holds the first minimum of the numbers of [l]: a number
    no greater than any other, and strictly smaller than every number
    before it. *)
Definition first_minimum (l : list float) (i : nat) : Prop :=
  exists x,
    l !! i = Some x /\ PrimFloat.is_nan x = false /\
    forall p y, l !! p = Some y -> PrimFloat.is_nan y = false ->
                PrimFloat.leb x y = true /\ ((p < i)%nat -> PrimFloat.ltb x y = true).

(** What the scan of [idxmin] knows after the prefix [pre]. *)
Definition scanned (pre : list float) (best : option (nat * float)) : Prop :=
  match best with
  | None => forall p y, pre !! p = Some y -> PrimFloat.is_nan y = true
  | Some (j, b) => pre !! j = Some b /\ first_minimum pre j
  end.

(** The same ticker with every chain stripped of its puts. *)
Definition without_puts (t : ticker_obj) : ticker_obj :=
  {| t_options := t_options t;
     t_last_price := t_last_price t;
     t_history_close := t_history_close t;
     days_to := days_to t;
     t_option_chain := fun exp_date =>
       match t_option_chain t exp_date with
       | Ok chain => Ok {| calls := calls chain; puts := [] |}
       | Raise e => Raise e
       end |}.

(** A block that only appends to its list, whatever the list holds. *)
Definition appends {A B : Type} (m : M (list A) B) : Prop :=
  forall s, m s = (fst (m []), s ++ snd (m [])).

(** ** The order of binary64 numbers

    [float_key] sends every float but NaN to a triple of integers whose
    lexicographic order is the order [<?] and [<=?] compute. *)

Definition sf_key (x : spec_float) : Z * Z * Z :=
  match x with
  | S754_infinity true => (-2, 0, 0)
  | S754_finite true m e => (-1, - e, - Z.pos m)
  | S754_zero _ => (0, 0, 0)
  | S754_nan => (0, 0, 0)
  | S754_finite false m e => (1, e, Z.pos m)
  | S754_infinity false => (2, 0, 0)
  end.

Definition float_key (x : float) : Z * Z * Z := sf_key (Prim2SF x).

Definition key_lt (a b : Z * Z * Z) : Prop :=
  let '(a1, a2, a3) := a in
  let '(b1, b2, b3) := b in
  a1 < b1 \/ (a1 = b1 /\ (a2 < b2 \/ (a2 = b2 /\ a3 < b3))).

Definition key_le (a b : Z * Z * Z) : Prop :=
  let '(a1, a2, a3) := a in
  let '(b1, b2, b3) := b in
  a1 < b1 \/ (a1 = b1 /\ (a2 < b2 \/ (a2 = b2 /\ a3 <= b3))).

(** ** Scenarios *)

(** A quote given by its strike and implied volatility. *)
Definition plain_row (k iv : float) : row :=
  {| strike := CNum k; lastPrice := CNum 1; bid := CNum 1; ask := CNum 1;
     volume := CNum 10; openInterest := CNum 25; impliedVolatility := CNum iv |}.

(** A ticker with the single expiration 2026-12-18. *)
Definition one_expiration (price : res (option float)) (dte : res Z)
    (chain : res option_chain) : ticker_obj :=
  {| t_options := Ok ["2026-12-18"%string];
     t_last_price := price;
     t_history_close := Ok None;
     days_to := fun _ => dte;
     t_option_chain := fun _ => chain |}.

(** Spot 100, 30 days, calls at 95, 100 and 105, one put at 100. *)
Definition scenario_ticker : ticker_obj :=
  one_expiration (Ok (Some 100%float)) (Ok 30)
    (Ok {| calls := [plain_row 95 0.25; plain_row 100 0.20; plain_row 105 0.18];
           puts := [plain_row 100 0.21] |}).

(** A call whose implied volatility is the provider's 1e-05. *)
Definition tiny_iv_ticker : ticker_obj :=
  one_expiration (Ok (Some 100%float)) (Ok 30)
    (Ok {| calls := [plain_row 100 1e-05]; puts := [] |}).

(** A call whose implied volatility is missing. *)
Definition nan_iv_ticker : ticker_obj :=
  one_expiration (Ok (Some 100%float)) (Ok 30)
    (Ok {| calls := [plain_row 100 nan]; puts := [] |}).

(** Calls at 99 and 101 around a spot of 100. *)
Definition tie_ticker : ticker_obj :=
  one_expiration (Ok (Some 100%float)) (Ok 30)
    (Ok {| calls := [plain_row 99 0.22; plain_row 101 0.19]; puts := [] |}).

(** A single call at 150 for a spot of 100. *)
Definition far_strike_ticker : ticker_obj :=
  one_expiration (Ok (Some 100%float)) (Ok 30)
    (Ok {| calls := [plain_row 150 0.3]; puts := [] |}).

(** A good call followed by a put whose strike is not a number. *)
Definition broken_put_ticker : ticker_obj :=
  one_expiration (Ok (Some 100%float)) (Ok 30)
    (Ok {| calls := [plain_row 100 0.2];
           puts := [{| strike := CNone; lastPrice := CNum 1; bid := CNum 1;
                       ask := CNum 1; volume := CNum 10; openInterest := CNum 25;
                       impliedVolatility := CNum 0.2 |}] |}).

(** An expiration that expires today. *)
Definition expired_ticker : ticker_obj :=
  one_expiration (Ok (Some 100%float)) (Ok 0)
    (Ok {| calls := [plain_row 100 0.2]; puts := [plain_row 100 0.21] |}).

(** A ticker whose last price is reported as 0.0. *)
Definition zero_spot_ticker : ticker_obj :=
  one_expiration (Ok (Some 0%float)) (Ok 30)
    (Ok {| calls := [plain_row 100 0.2]; puts := [] |}).

(** A ticker with options but no price. *)
Definition no_spot_ticker : ticker_obj :=
  one_expiration (Ok None) (Ok 30)
    (Ok {| calls := [plain_row 100 0.2]; puts := [] |}).

(** A ticker with neither expirations nor a price. *)
Definition no_data_ticker : ticker_obj :=
  {| t_options := Ok [];
     t_last_price := Ok None;
     t_history_close := Ok None;
     days_to := fun _ => Ok 30;
     t_option_chain := fun _ => Ok {| calls := []; puts := [] |} |}.

(** A ticker with options whose two price sources both fail. *)
Definition failing_price_ticker : ticker_obj :=
  {| t_options := Ok ["2026-12-18"%string];
     t_last_price := Raise (ProviderError "fast_info");
     t_history_close := Raise (ProviderError "history");
     days_to := fun _ => Ok 30;
     t_option_chain := fun _ => Ok {| calls := [plain_row 100 0.2]; puts := [] |} |}.

(** A row of an object column: the strike or the IV may be [None]. *)
Definition object_row (k iv : cell) : row :=
  {| strike := k; lastPrice := CNum 1; bid := CNum 1; ask := CNum 1;
     volume := CNum 10; openInterest := CNum 25; impliedVolatility := iv |}.

(** Calls at the money without an IV and with an IV but without a strike,
    followed by a plain call at 101. *)
Definition none_cells_ticker : ticker_obj :=
  one_expiration (Ok (Some 100%float)) (Ok 30)
    (Ok {| calls := [object_row (CNum 100) CNone; object_row CNone (CNum 0.3);
                     plain_row 101 0.2];
           puts := [] |}).

(** [n / 10000] as the double [round] returns for it, tested against the
    moneyness band. *)
Definition band_grid_ok (n : Z) : bool :=
  let r := PrimFloat.div (PrimFloat.of_uint63 (Uint63.of_Z n)) 10000%float in
  PrimFloat.leb 0.8%float r && PrimFloat.leb r 1.2%float.

(** Zero of either sign, a positive number or plus infinity. *)
Definition sf_nonneg (x : spec_float) : bool :=
  match x with
  | S754_zero _ => true
  | S754_infinity s => negb s
  | S754_finite s _ _ => negb s
  | S754_nan => false
  end.

(** [f lo && f (lo + 1) && ...], [count] values. *)
Fixpoint all_from (f : Z -> bool) (lo : Z) (count : nat) : bool :=
  match count with
  | O => true
  | S c => f lo && all_from f (lo + 1) c
  end.

(** ** The ticker table and [/api/quote] *)

(** [c.upper()] for an ASCII character. *)
Definition upper_ascii (c : Ascii.ascii) : Ascii.ascii :=
  let n := Ascii.nat_of_ascii c in
  if (97 <=? n)%nat && (n <=? 122)%nat then Ascii.ascii_of_nat (n - 32) else c.

(** [s.upper()] for ASCII text. *)
Fixpoint upper (s : string) : string :=
  match s with
  | EmptyString => EmptyString
  | String c s' => String (upper_ascii c) (upper s')
  end.

(** The text is ASCII: every character is below 128. *)
Fixpoint ascii_text (s : string) : bool :=
  match s with
  | EmptyString => true
  | String c s' => (Ascii.nat_of_ascii c <? 128)%nat && ascii_text s'
  end.

Definition TICKER_MAP : gmap string string :=
  list_to_map
    [("SPY", "SPY"); ("SPX", "^GSPC"); ("QQQ", "QQQ");
     ("IWM", "IWM"); ("VIX", "^VIX"); ("ES", "ES=F")]%string.

(** [TICKER_MAP.get(ticker.upper(), ticker.upper())] *)
Definition get_yf_ticker (ticker : string) : string :=
  default (upper ticker) (TICKER_MAP !! upper ticker).

(** The attributes of [t.fast_info] that only [quote] reads: what reading
    [info.previous_close] and [info.market_cap] returns or raises. *)
Record fast_info_rest : Type := {
  fi_previous_close : res (option float);
  fi_market_cap : res (option pynum)
}.

(** [getattr(info, name, None)]: an [AttributeError] raised by the read is
    swallowed and gives the default [None]; any other exception goes
    through. *)
Definition getattr_or_none {A : Type} (read : res (option A)) : res (option A) :=
  match read with
  | Raise AttributeError => Ok None
  | _ => read
  end.

Inductive quote_response : Type :=
  | QuoteData (yf_ticker : string) (price previous_close change change_pct : option float)
              (market_cap : option pynum)
      (* 200 *)
  | QuoteFailure (e : exn).
      (* 500: {'error': str(e)} *)

(** [if price and prev_close: change = price - prev_close;
    change_pct = (change / prev_close) * 100] -- the division is Python's,
    which raises on a zero divisor. *)
Definition quote_change (price prev_close : option float)
  : res (option float * option float) :=
  match truthy_price price, truthy_price prev_close with
  | Some p, Some pc =>
      let change := PrimFloat.sub p pc in
      match py_truediv change pc with
      | Ok q => Ok (Some change, Some (PrimFloat.mul q 100%float))
      | Raise e => Raise e
      end
  | _, _ => Ok (None, None)
  end.

(** The body of [quote] for the ticker object [t] that
    [yf.Ticker(get_yf_ticker(ticker))] returns.  [info = t.fast_info] hands
    out the object without reading an attribute, so what [t_last_price]
    raises is raised by the read of [last_price], inside [getattr]; the
    three attributes are all read through [getattr]. *)
Definition quote (provider : string -> ticker_obj * fast_info_rest) (ticker : string)
  : quote_response :=
  let yf_ticker := get_yf_ticker ticker in
  let '(t, info) := provider yf_ticker in
  match getattr_or_none (t_last_price t) with
  | Raise e => QuoteFailure e
  | Ok last =>
      match (match last with
             | None => t_history_close t
             | Some p => Ok (Some p)
             end) with
      | Raise e => QuoteFailure e
      | Ok price =>
          match getattr_or_none (fi_previous_close info) with
          | Raise e => QuoteFailure e
          | Ok prev_close =>
              match quote_change price prev_close with
              | Raise e => QuoteFailure e
              | Ok (change, change_pct) =>
                  match getattr_or_none (fi_market_cap info) with
                  | Raise e => QuoteFailure e
                  | Ok cap => QuoteData yf_ticker price prev_close change change_pct cap
                  end
              end
          end
      end
  end.

(** The same ticker object with another list of expirations. *)
Definition with_options (t : ticker_obj) (expirations : list string) : ticker_obj :=
  {| t_options := Ok expirations;
     t_last_price := t_last_price t;
     t_history_close := t_history_close t;
     days_to := days_to t;
     t_option_chain := t_option_chain t |}.

(** A number of the normalised chain that JSON can carry as it is: the
    [int] of the missing-value branch, or a float that is not NaN. *)
Definition plain_number (x : pynum) : bool :=
  match x with
  | PyInt _ => true
  | PyFloat f => negb (PrimFloat.is_nan f)
  end.

Definition is_int (x : pynum) : bool :=
  match x with
  | PyInt _ => true
  | PyFloat _ => false
  end.

(** Every number of a normalised quote but the strike: prices and implied
    volatility are plain numbers, volume and open interest are [int]s. *)
Definition clean_quote (q : option_quote) : bool :=
  plain_number (q_lastPrice q) && plain_number (q_bid q) && plain_number (q_ask q)
  && is_int (q_volume q) && is_int (q_openInterest q)
  && plain_number (q_impliedVolatility q).

(** No last price, but a close of 100 in the history. *)
Definition history_only_ticker : ticker_obj :=
  {| t_options := Ok ["2026-12-18"%string];
     t_last_price := Ok None;
     t_history_close := Ok (Some 100%float);
     days_to := fun _ => Ok 30;
     t_option_chain := fun _ => Ok {| calls := [plain_row 100 0.2]; puts := [] |} |}.

Definition history_only_provider (yf_ticker : string) : ticker_obj * fast_info_rest :=
  (history_only_ticker,
   {| fi_previous_close := Ok (Some 98%float); fi_market_cap := Ok None |}).

(** A [fast_info] without the attributes [last_price] and [market_cap],
    over a history whose last close is 100 or whose download fails. *)
Definition missing_attribute_ticker (history : res (option float)) : ticker_obj :=
  {| t_options := Ok ["2026-12-18"%string];
     t_last_price := Raise AttributeError;
     t_history_close := history;
     days_to := fun _ => Ok 30;
     t_option_chain := fun _ => Ok {| calls := [plain_row 100 0.2]; puts := [] |} |}.

Definition missing_attribute_provider (history : res (option float)) (yf_ticker : string)
  : ticker_obj * fast_info_rest :=
  (missing_attribute_ticker history,
   {| fi_previous_close := Ok (Some 98%float); fi_market_cap := Raise AttributeError |}).

(** The rows of one side of a chain. *)
Definition side (ty : option_type) (chain : option_chain) : list row :=
  match ty with
  | call => calls chain
  | put => puts chain
  end.

(** [pt] is the point of a quote on the [ty] side of the live expiration
    [exp_date]. *)
Definition point_of_expiration (t : ticker_obj) (spot : float) (exp_date : string)
    (ty : option_type) (pt : surface_point) : Prop :=
  exists dte chain r,
    days_to t exp_date = Ok dte /\ 0 < dte /\ t_option_chain t exp_date = Ok chain
    /\ In r (side ty chain) /\ quote_point spot dte ty r = Some pt.

(** A ticker whose last price is reported as NaN. *)
Definition nan_spot_ticker : ticker_obj :=
  one_expiration (Ok (Some nan)) (Ok 30)
    (Ok {| calls := [plain_row 100 0.2]; puts := [plain_row 100 0.21] |}).

(** * Properties *)

(** ** Binary64 comparisons *)

Section FloatOrder.

Lemma is_nan_Prim2SF (x : float) :
  PrimFloat.is_nan x = false <-> Prim2SF x <> S754_nan.
Proof.
  unfold PrimFloat.is_nan. rewrite FloatAxioms.eqb_spec. unfold SFeqb.
  destruct (Prim2SF x) as [s|s| |s m e]; simpl; try (split; [congruence|reflexivity]).
  - destruct s; simpl; split; congruence.
  - split; [congruence | intros H; exfalso; apply H; reflexivity].
  - rewrite Z.compare_refl, Pos.compare_cont_refl. destruct s; simpl; split; congruence.
Qed.

Lemma SFcompare_key (x y : spec_float) :
  x <> S754_nan -> y <> S754_nan ->
  (SFcompare x y = Some Lt <-> key_lt (sf_key x) (sf_key y)) /\
  (SFcompare x y = Some Eq <-> sf_key x = sf_key y) /\
  (SFcompare x y = Some Gt <-> key_lt (sf_key y) (sf_key x)).
Proof.
  intros Hx Hy.
  destruct x as [sx|sx| |sx mx ex], y as [sy|sy| |sy my ey]; try congruence;
    try destruct sx; try destruct sy; simpl;
    try (repeat split; intros; try congruence; try lia; fail).
  - (* both negative *)
    change (Pos.compare_cont Eq mx my) with (Pos.compare mx my).
    destruct (Z.compare_spec ex ey); [destruct (Pos.compare_spec mx my)| |]; simpl;
      repeat split; intros; try congruence; try lia;
      try (f_equal; lia); try (injection H1; lia); try (injection H0; lia).
  - change (Pos.compare_cont Eq mx my) with (Pos.compare mx my).
    destruct (Z.compare_spec ex ey); [destruct (Pos.compare_spec mx my)| |]; simpl;
      repeat split; intros; try congruence; try lia;
      try (f_equal; lia); try (injection H1; lia); try (injection H0; lia).
Qed.

Lemma ltb_key (x y : float) :
  PrimFloat.is_nan x = false -> PrimFloat.is_nan y = false ->
  (PrimFloat.ltb x y = true <-> key_lt (float_key x) (float_key y)).
Proof.
  intros Hx%is_nan_Prim2SF Hy%is_nan_Prim2SF.
  rewrite FloatAxioms.ltb_spec. unfold SFltb, float_key.
  destruct (SFcompare_key _ _ Hx Hy) as (Hlt & Heq & Hgt).
  destruct (SFcompare (Prim2SF x) (Prim2SF y)) as [[| |]|] eqn:E.
  - split; [congruence|]. intros H. apply Hlt in H. congruence.
  - split; [intros _; apply Hlt; reflexivity | reflexivity].
  - split; [congruence|]. intros H. apply Hlt in H. congruence.
  - split; [congruence|]. intros H. apply Hlt in H. congruence.
Qed.

Lemma leb_key (x y : float) :
  PrimFloat.is_nan x = false -> PrimFloat.is_nan y = false ->
  (PrimFloat.leb x y = true <-> key_le (float_key x) (float_key y)).
Proof.
  intros Hx%is_nan_Prim2SF Hy%is_nan_Prim2SF.
  rewrite FloatAxioms.leb_spec. unfold SFleb, float_key.
  destruct (SFcompare_key _ _ Hx Hy) as (Hlt & Heq & Hgt).
  assert (Hle : key_le (sf_key (Prim2SF x)) (sf_key (Prim2SF y)) <->
                key_lt (sf_key (Prim2SF x)) (sf_key (Prim2SF y)) \/
                sf_key (Prim2SF x) = sf_key (Prim2SF y)).
  { destruct (sf_key (Prim2SF x)) as [[a1 a2] a3], (sf_key (Prim2SF y)) as [[b1 b2] b3].
    unfold key_le, key_lt. split.
    - intros H. destruct (Z.eq_dec a3 b3);
        [destruct (Z.eq_dec a2 b2); [destruct (Z.eq_dec a1 b1)|]|];
        try (left; lia). right. congruence.
    - intros [H|H]; [lia | injection H; lia]. }
  rewrite Hle.
  destruct (SFcompare (Prim2SF x) (Prim2SF y)) as [[| |]|] eqn:E.
  - split; [intros _; right; apply Heq; reflexivity | reflexivity].
  - split; [intros _; left; apply Hlt; reflexivity | reflexivity].
  - split; [congruence|]. intros [H|H]; [apply Hlt in H | apply Heq in H]; congruence.
  - split; [congruence|]. intros [H|H]; [apply Hlt in H | apply Heq in H]; congruence.
Qed.

(** A comparison with NaN is false. *)
Lemma leb_not_nan (x y : float) :
  PrimFloat.leb x y = true ->
  PrimFloat.is_nan x = false /\ PrimFloat.is_nan y = false.
Proof.
  rewrite FloatAxioms.leb_spec. unfold SFleb. intros H.
  split; apply is_nan_Prim2SF; intros E; rewrite E in H;
    destruct (Prim2SF x), (Prim2SF y); simpl in H; congruence.
Qed.

Lemma ltb_not_nan (x y : float) :
  PrimFloat.ltb x y = true ->
  PrimFloat.is_nan x = false /\ PrimFloat.is_nan y = false.
Proof.
  rewrite FloatAxioms.ltb_spec. unfold SFltb. intros H.
  split; apply is_nan_Prim2SF; intros E; rewrite E in H;
    destruct (Prim2SF x), (Prim2SF y); simpl in H; congruence.
Qed.

Ltac by_keys x y :=
  destruct (float_key x) as [[? ?] ?], (float_key y) as [[? ?] ?];
  unfold key_lt, key_le in *.

Lemma not_ltb_leb (x y : float) :
  PrimFloat.is_nan x = false -> PrimFloat.is_nan y = false ->
  PrimFloat.ltb x y = false -> PrimFloat.leb y x = true.
Proof.
  intros Hx Hy H. apply leb_key; [assumption..|].
  assert (N : ~ key_lt (float_key x) (float_key y)).
  { intros K. apply (ltb_key x y Hx Hy) in K. congruence. }
  by_keys x y. lia.
Qed.

Lemma ltb_leb (x y : float) :
  PrimFloat.ltb x y = true -> PrimFloat.leb x y = true.
Proof.
  intros H. destruct (ltb_not_nan _ _ H) as [Hx Hy].
  apply leb_key; [assumption..|]. apply (ltb_key x y Hx Hy) in H.
  by_keys x y. lia.
Qed.

Lemma ltb_not_leb (x y : float) :
  PrimFloat.ltb x y = true -> PrimFloat.leb y x = false.
Proof.
  intros H. destruct (ltb_not_nan _ _ H) as [Hx Hy].
  apply (ltb_key x y Hx Hy) in H.
  destruct (PrimFloat.leb y x) eqn:E; [|reflexivity].
  apply (leb_key y x Hy Hx) in E. by_keys x y. lia.
Qed.

Lemma leb_trans (x y z : float) :
  PrimFloat.leb x y = true -> PrimFloat.leb y z = true -> PrimFloat.leb x z = true.
Proof.
  intros H1 H2.
  destruct (leb_not_nan _ _ H1) as [Hx Hy], (leb_not_nan _ _ H2) as [_ Hz].
  apply (leb_key x y Hx Hy) in H1. apply (leb_key y z Hy Hz) in H2.
  apply leb_key; [assumption..|].
  by_keys x y. destruct (float_key z) as [[? ?] ?]. lia.
Qed.

Lemma ltb_leb_trans (x y z : float) :
  PrimFloat.ltb x y = true -> PrimFloat.leb y z = true -> PrimFloat.ltb x z = true.
Proof.
  intros H1 H2.
  destruct (ltb_not_nan _ _ H1) as [Hx Hy], (leb_not_nan _ _ H2) as [_ Hz].
  apply (ltb_key x y Hx Hy) in H1. apply (leb_key y z Hy Hz) in H2.
  apply ltb_key; [assumption..|].
  by_keys x y. destruct (float_key z) as [[? ?] ?]. lia.
Qed.

Lemma leb_refl (x : float) :
  PrimFloat.is_nan x = false -> PrimFloat.leb x x = true.
Proof.
  intros Hx. apply leb_key; [assumption..|].
  destruct (float_key x) as [[? ?] ?]. unfold key_le. lia.
Qed.

End FloatOrder.

(** ** Rounding to four decimals *)

Section Round4.

Lemma round_half_even_bounds (num den : Z) :
  num / den <= round_half_even num den <= num / den + 1.
Proof.
  unfold round_half_even.
  destruct (2 * (num mod den) <? den); [lia|].
  destruct (den <? 2 * (num mod den)); [lia|].
  destruct (Z.even (num / den)); lia.
Qed.

Lemma digits2_pos_bounds (p : positive) :
  2 ^ (Z.pos (digits2_pos p) - 1) <= Z.pos p < 2 ^ Z.pos (digits2_pos p).
Proof.
  induction p as [p IH|p IH|]; simpl digits2_pos.
  - rewrite Pos2Z.inj_succ.
    replace (Z.succ (Z.pos (digits2_pos p)) - 1) with (Z.succ (Z.pos (digits2_pos p) - 1)) by lia.
    rewrite !Z.pow_succ_r by lia. lia.
  - rewrite Pos2Z.inj_succ.
    replace (Z.succ (Z.pos (digits2_pos p)) - 1) with (Z.succ (Z.pos (digits2_pos p) - 1)) by lia.
    rewrite !Z.pow_succ_r by lia. lia.
  - simpl. lia.
Qed.

Lemma all_from_spec (f : Z -> bool) (count : nat) (lo n : Z) :
  all_from f lo count = true -> lo <= n < lo + Z.of_nat count -> f n = true.
Proof.
  revert lo. induction count as [|c IH]; intros lo H Hn; [lia|].
  simpl in H. apply andb_prop in H as [H0 H1].
  destruct (Z.eq_dec n lo) as [->|Hne]; [assumption|].
  apply (IH (lo + 1)); [assumption | lia].
Qed.

(** Every multiple of 1e-4 from 0.8 to 1.2, as the double Python builds
    for it, is within the band. *)
Lemma band_grid (n : Z) : 8000 <= n <= 12000 -> band_grid_ok n = true.
Proof.
  intros Hn.
  assert (G : all_from band_grid_ok 8000 (Z.to_nat 4001) = true)
    by (vm_compute; reflexivity).
  apply (all_from_spec _ _ _ n G). lia.
Qed.

(** The band test survives the rounding of the stored moneyness. *)
Lemma py_round4_band (m : float) :
  PrimFloat.leb 0.8%float m = true -> PrimFloat.leb m 1.2%float = true ->
  PrimFloat.leb 0.8%float (py_round4 m) = true /\
  PrimFloat.leb (py_round4 m) 1.2%float = true.
Proof.
  intros Hlo Hhi.
  pose proof (Prim2SF_valid m) as Hv.
  rewrite FloatAxioms.leb_spec in Hlo, Hhi.
  change (Prim2SF 0.8%float) with (S754_finite false 7205759403792794 (-53)) in Hlo.
  change (Prim2SF 1.2%float) with (S754_finite false 5404319552844595 (-52)) in Hhi.
  unfold py_round4.
  destruct (Prim2SF m) as [s|s| |s mm e]; try (destruct s); cbn [SFleb SFcompare] in Hlo, Hhi; try discriminate.
  unfold valid_binary, bounded, canonical_mantissa, fexp, emin in Hv.
  apply andb_prop in Hv as [Hc _].
  apply Z.eqb_eq in Hc.
  assert (CC : forall p q, PosDef.Pos.compare_cont Eq p q = Pos.compare p q) by reflexivity.
  rewrite CC in Hlo, Hhi. clear CC.
  assert (Hlo' : -53 < e \/ (e = -53 /\ 7205759403792794 <= Z.pos mm)).
  { destruct (Z.compare_spec (-53) e) as [E|E|E].
    - right. split; [symmetry; exact E|].
      destruct (Pos.compare_spec 7205759403792794 mm) as [P|P|P].
      + rewrite P. apply Z.le_refl.
      + apply Z.lt_le_incl. exact (Pos2Z.pos_lt_pos _ _ P).
      + discriminate Hlo.
    - left. exact E.
    - discriminate Hlo. }
  assert (Hhi' : e < -52 \/ (e = -52 /\ Z.pos mm <= 5404319552844595)).
  { destruct (Z.compare_spec e (-52)) as [E|E|E].
    - right. split; [exact E|].
      destruct (Pos.compare_spec mm 5404319552844595) as [P|P|P].
      + rewrite P. apply Z.le_refl.
      + apply Z.lt_le_incl. exact (Pos2Z.pos_lt_pos _ _ P).
      + discriminate Hhi.
    - left. exact E.
    - discriminate Hhi. }
  clear Hlo Hhi.
  assert (Hrange : e = -53 \/ e = -52).
  { destruct Hlo' as [H1|[H1 _]], Hhi' as [H2|[H2 _]]; clear - H1 H2; lia. }
  assert (Hdig : Z.pos (digits2_pos mm) = 53).
  { unfold prec, emax in Hc. clear - Hc Hrange. lia. }
  clear Hc.
  pose proof (digits2_pos_bounds mm) as Hd.
  rewrite Hdig in Hd.
  change (2 ^ (53 - 1)) with 4503599627370496 in Hd.
  change (2 ^ 53) with 9007199254740992 in Hd.
  pose proof (round_half_even_bounds (Z.pos mm * 10000) (2 ^ (- e))) as Hr.
  set (n := round_half_even (Z.pos mm * 10000) (2 ^ (- e))) in *.
  assert (Hn : 8000 <= n <= 12000).
  { destruct Hrange as [-> | ->].
    - assert (Hm : 7205759403792794 <= Z.pos mm).
      { destruct Hlo' as [H|[_ H]]; [clear - H; lia | exact H]. }
      clear Hlo' Hhi'.
      change (2 ^ (- -53)) with 9007199254740992 in Hr.
      assert (8000 <= Z.pos mm * 10000 / 9007199254740992 <= 9999).
      { split.
        - apply Z.div_le_lower_bound; [reflexivity|].
          apply Z.le_trans with (7205759403792794 * 10000); [vm_compute; discriminate|].
          apply Z.mul_le_mono_nonneg_r; [discriminate | exact Hm].
        - apply Z.lt_succ_r, Z.div_lt_upper_bound; [reflexivity|].
          apply Z.lt_le_trans with (9007199254740992 * 10000); [|vm_compute; discriminate].
          apply Z.mul_lt_mono_pos_r; [reflexivity | apply Hd]. }
      clear - H Hr. lia.
    - assert (Hm : Z.pos mm <= 5404319552844595).
      { destruct Hhi' as [H|[_ H]]; [clear - H; lia | exact H]. }
      clear Hlo' Hhi'.
      change (2 ^ (- -52)) with 4503599627370496 in Hr.
      assert (10000 <= Z.pos mm * 10000 / 4503599627370496 <= 11999).
      { split.
        - apply Z.div_le_lower_bound; [reflexivity|].
          apply Z.le_trans with (4503599627370496 * 10000); [vm_compute; discriminate|].
          apply Z.mul_le_mono_nonneg_r; [discriminate | apply Hd].
        - apply Z.lt_succ_r, Z.div_lt_upper_bound; [reflexivity|].
          apply Z.le_lt_trans with (5404319552844595 * 10000); [|vm_compute; reflexivity].
          apply Z.mul_le_mono_nonneg_r; [discriminate | exact Hm]. }
      clear - H Hr. lia. }
  replace (0 <=? e) with false
    by (symmetry; apply Z.leb_gt; destruct Hrange as [-> | ->]; reflexivity).
  replace (n <? 2 ^ 53) with true
    by (symmetry; apply Z.ltb_lt; apply Z.le_lt_trans with 12000; [apply Hn | reflexivity]).
  pose proof (band_grid n Hn) as G. unfold band_grid_ok in G.
  apply andb_prop in G. exact G.
Qed.

End Round4.

(** ** The sign of a quotient *)

Section Nonneg.

Lemma shr_1_nonneg (mrs : shr_record) : 0 <= shr_m mrs -> 0 <= shr_m (shr_1 mrs).
Proof.
  destruct mrs as [m r s]. simpl. destruct m as [|[p|p|]|[p|p|]]; simpl; lia.
Qed.

Lemma iter_shr_1_nonneg (p : positive) (mrs : shr_record) :
  0 <= shr_m mrs -> 0 <= shr_m (SpecFloat.iter_pos shr_1 p mrs).
Proof.
  revert mrs. induction p as [p IH|p IH|]; intros mrs H; simpl.
  - apply IH, IH, shr_1_nonneg, H.
  - apply IH, IH, H.
  - apply shr_1_nonneg, H.
Qed.

Lemma shr_fexp_nonneg (pr em m e : Z) (l : location) :
  0 <= m -> 0 <= shr_m (fst (shr_fexp pr em m e l)).
Proof.
  intros H. unfold shr_fexp, shr.
  assert (H0 : 0 <= shr_m (shr_record_of_loc m l)) by (destruct l as [|[]]; exact H).
  destruct (fexp pr em (Zdigits2 m + e) - e); simpl; try exact H0.
  apply iter_shr_1_nonneg, H0.
Qed.

Lemma round_nearest_even_nonneg (m : Z) (l : location) :
  0 <= m -> 0 <= round_nearest_even m l.
Proof.
  intros H. destruct l as [|[]]; simpl; try lia. destruct (Z.even m); lia.
Qed.

Lemma binary_round_aux_nonneg (pr em m e : Z) (l : location) :
  0 <= m -> sf_nonneg (binary_round_aux pr em false m e l) = true.
Proof.
  intros H. unfold binary_round_aux.
  pose proof (shr_fexp_nonneg pr em m e l H) as H1.
  destruct (shr_fexp pr em m e l) as [mrs' e']. simpl in H1.
  pose proof (shr_fexp_nonneg pr em _ e' loc_Exact
                (round_nearest_even_nonneg _ (loc_of_shr_record mrs') H1)) as H2.
  destruct (shr_fexp pr em _ e' loc_Exact) as [mrs'' e'']. simpl in H2.
  destruct (shr_m mrs'') as [|p|p]; [reflexivity | | lia].
  destruct (e'' <=? em - pr); reflexivity.
Qed.

Lemma binary_normalize_nonneg (pr em n e : Z) :
  0 <= n -> sf_nonneg (binary_normalize pr em n e false) = true.
Proof.
  intros H. destruct n as [|p|p]; [reflexivity | | lia].
  unfold binary_normalize, binary_round.
  destruct (shl_align _ _ _) as [mz ez]. apply binary_round_aux_nonneg. lia.
Qed.

Lemma SFdiv_nonneg (pr em : Z) (x : spec_float) (my : positive) (ey : Z) :
  sf_nonneg x = true ->
  sf_nonneg (SFdiv pr em x (S754_finite false my ey)) = true.
Proof.
  destruct x as [s|s| |s mx ex]; simpl.
  - intros _. reflexivity.
  - destruct s; [discriminate | reflexivity].
  - discriminate.
  - destruct s; [discriminate|]. intros _. simpl xorb.
    unfold SFdiv_core_binary.
    set (m' := match _ - _ - _ with 0 => _ | Z.pos _ => _ | Z.neg _ => _ end).
    assert (Hm' : 0 <= m').
    { unfold m'. destruct (_ - _ - _) as [|p|p]; try lia.
      apply Z.shiftl_nonneg. lia. }
    pose proof (Z.div_pos m' (Z.pos my) Hm' ltac:(lia)) as Hq.
    unfold Z.div in Hq. destruct (Z.div_eucl m' (Z.pos my)) as [q r]. simpl in Hq.
    apply binary_round_aux_nonneg. exact Hq.
Qed.

Lemma leb_0_nonneg (r : float) :
  sf_nonneg (Prim2SF r) = true -> PrimFloat.leb 0%float r = true.
Proof.
  rewrite FloatAxioms.leb_spec. change (Prim2SF 0) with (S754_zero false).
  destruct (Prim2SF r) as [s|s| |s m e]; simpl; try discriminate; try reflexivity;
    destruct s; try discriminate; reflexivity.
Qed.

Lemma of_uint63_div_nonneg (u : int) :
  PrimFloat.leb 0%float (PrimFloat.div (PrimFloat.of_uint63 u) 10000%float) = true.
Proof.
  apply leb_0_nonneg. rewrite FloatAxioms.div_spec, FloatAxioms.of_uint63_spec.
  assert (E : Prim2SF 10000 = S754_finite false 5497558138880000 (-39)) by reflexivity.
  rewrite E.
  apply SFdiv_nonneg. apply binary_normalize_nonneg.
  pose proof (Uint63.to_Z_bounded u). lia.
Qed.

(** Rounding a strictly positive number never gives a negative one. *)
Lemma py_round4_nonneg (x : float) :
  PrimFloat.ltb 0%float x = true -> PrimFloat.leb 0%float (py_round4 x) = true.
Proof.
  intros H. pose proof (ltb_leb _ _ H) as Hle.
  rewrite FloatAxioms.ltb_spec in H. change (Prim2SF 0) with (S754_zero false) in H.
  unfold py_round4.
  destruct (Prim2SF x) as [s|s| |s m e]; try exact Hle.
  destruct s; [cbn [SFltb SFcompare] in H; discriminate H|].
  destruct (0 <=? e); [exact Hle|].
  destruct (_ <? _); [apply of_uint63_div_nonneg | exact Hle].
Qed.

End Nonneg.

(** ** Loops that append *)

Section Loops.
Context {A : Type}.

Lemma appends_ret {B : Type} (b : B) : appends (ret (S := list A) b).
Proof. intros s. unfold ret. simpl. rewrite app_nil_r. reflexivity. Qed.

Lemma appends_lift {B : Type} (r : res B) : appends (lift (S := list A) r).
Proof. intros s. unfold lift. simpl. rewrite app_nil_r. reflexivity. Qed.

Lemma appends_append (x : A) : appends (append x).
Proof. intros s. reflexivity. Qed.

Lemma appends_bind {B C : Type} (m : M (list A) B) (k : B -> M (list A) C) :
  appends m -> (forall b, appends (k b)) -> appends (bind m k).
Proof.
  intros Hm Hk s. unfold bind. rewrite (Hm s).
  destruct (m []) as [[b|e] d]; simpl.
  - rewrite (Hk b (s ++ d)), (Hk b d). simpl. rewrite app_assoc. reflexivity.
  - reflexivity.
Qed.

Lemma appends_for_each {X : Type} (body : X -> M (list A) unit) (l : list X) :
  (forall x, appends (body x)) -> appends (for_each body l).
Proof.
  intros Hb. induction l as [|x l IH]; simpl.
  - apply appends_ret.
  - apply appends_bind; [apply Hb | intros _; exact IH].
Qed.

Lemma appends_try_continue (m : M (list A) unit) :
  appends m -> appends (try_continue m).
Proof. intros Hm s. unfold try_continue. rewrite (Hm s). reflexivity. Qed.

(** A loop of [try]/[continue] bodies produces the concatenation of what
    each body appends on its own. *)
Lemma exec_for_each_try {X : Type} (body : X -> M (list A) unit) (l : list X) (s : list A) :
  (forall x, appends (body x)) ->
  exec (for_each (fun x => try_continue (body x)) l) s
  = s ++ flat_map (fun x => exec (body x) []) l.
Proof.
  intros Hb. revert s. induction l as [|x l IH]; intros s; simpl.
  - unfold exec, ret. simpl. rewrite app_nil_r. reflexivity.
  - unfold exec, bind in *. unfold try_continue at 1. simpl.
    rewrite IH, (Hb x s). simpl. rewrite app_assoc. reflexivity.
Qed.

End Loops.

(** ** The IV surface *)

Section Surface.

Lemma surface_row_appends spot dte ty r : appends (surface_row spot dte ty r).
Proof.
  unfold surface_row.
  repeat (apply appends_bind; [apply appends_lift | intros ?]).
  destruct (in_band_with_iv _ _); [apply appends_append | apply appends_ret].
Qed.

Lemma surface_expiration_appends t spot exp_date :
  appends (surface_expiration t spot exp_date).
Proof.
  unfold surface_expiration.
  apply appends_bind; [apply appends_lift | intros dte].
  destruct (dte <=? 0); [apply appends_ret|].
  apply appends_bind; [apply appends_lift | intros chain].
  apply appends_bind; [|intros _];
    apply appends_for_each; intros r; apply surface_row_appends.
Qed.

Lemma truthy_div (k spot : float) :
  float_truthy spot = true -> py_truediv k spot = Ok (PrimFloat.div k spot).
Proof.
  unfold float_truthy, py_truediv. intros H.
  destruct (PrimFloat.eqb spot 0); [discriminate H | reflexivity].
Qed.

(** On a numeric quote of a live expiration the loop body appends exactly
    the point of the quote, if it has one. *)
Lemma surface_row_numeric spot dte ty r s :
  float_truthy spot = true -> 0 < dte -> numeric_quote r = true ->
  surface_row spot dte ty r s = (Ok tt, s ++ option_list (quote_point spot dte ty r)).
Proof.
  intros Hs Hd Hn. unfold numeric_quote in Hn. unfold surface_row, quote_point.
  destruct (strike r) as [k|]; [|discriminate Hn].
  destruct (impliedVolatility r) as [iv|]; [|discriminate Hn].
  unfold bind, lift. simpl. rewrite (truthy_div k spot Hs).
  unfold in_band_with_iv, emits.
  replace (0 <? dte) with true by (symmetry; apply Z.ltb_lt; exact Hd).
  destruct (PrimFloat.is_nan iv); simpl.
  - change (PrimFloat.ltb 0 0) with false. rewrite !andb_false_r.
    unfold ret. simpl. rewrite app_nil_r. reflexivity.
  - destruct (PrimFloat.ltb 0 iv); simpl.
    + rewrite andb_true_r.
      destruct (PrimFloat.leb 0.8 (PrimFloat.div k spot) &&
                PrimFloat.leb (PrimFloat.div k spot) 1.2);
        unfold ret, append; simpl; rewrite ?app_nil_r; reflexivity.
    + rewrite andb_false_r. unfold ret. simpl. rewrite app_nil_r. reflexivity.
Qed.

Lemma surface_rows_numeric spot dte ty rows s :
  float_truthy spot = true -> 0 < dte -> forallb numeric_quote rows = true ->
  for_each (surface_row spot dte ty) rows s
  = (Ok tt, s ++ omap (quote_point spot dte ty) rows).
Proof.
  intros Hs Hd. revert s. induction rows as [|r rows IH]; intros s Hn; simpl.
  - unfold ret. rewrite app_nil_r. reflexivity.
  - simpl in Hn. apply andb_prop in Hn as [Hr Hn].
    unfold bind. rewrite (surface_row_numeric _ _ _ _ _ Hs Hd Hr), (IH _ Hn).
    rewrite <- app_assoc. do 2 f_equal.
    destruct (quote_point spot dte ty r); reflexivity.
Qed.

Lemma quote_point_expired spot dte ty r :
  dte <= 0 -> quote_point spot dte ty r = None.
Proof.
  intros Hd. unfold quote_point, emits.
  replace (0 <? dte) with false by (symmetry; apply Z.ltb_ge; exact Hd).
  destruct (strike r), (impliedVolatility r); reflexivity.
Qed.

Lemma omap_none {X Y : Type} (f : X -> option Y) (l : list X) :
  (forall x, f x = None) -> omap f l = [].
Proof. intros H. induction l as [|x l IH]; simpl; [|rewrite H]; auto. Qed.

Lemma surface_expiration_clean t spot exp_date :
  float_truthy spot = true -> clean_expiration t exp_date = true ->
  exec (surface_expiration t spot exp_date) [] = expected_points t spot exp_date.
Proof.
  intros Hs Hc. unfold clean_expiration in Hc.
  unfold exec, surface_expiration, expected_points, bind, lift.
  destruct (days_to t exp_date) as [dte|]; [|discriminate Hc]. simpl.
  destruct (Z.leb_spec dte 0) as [Hd|Hd].
  - simpl. destruct (t_option_chain t exp_date) as [chain|]; [|reflexivity].
    rewrite !omap_none by (intros; apply quote_point_expired; exact Hd). reflexivity.
  - simpl in Hc. destruct (t_option_chain t exp_date) as [chain|]; [|discriminate Hc].
    apply andb_prop in Hc as [Hcalls Hputs].
    rewrite (surface_rows_numeric _ _ _ _ _ Hs Hd Hcalls).
    rewrite (surface_rows_numeric _ _ _ _ _ Hs Hd Hputs). reflexivity.
Qed.

Lemma quote_point_spec spot dte ty r pt :
  quote_point spot dte ty r = Some pt <->
  exists k iv,
    strike r = CNum k /\ impliedVolatility r = CNum iv /\
    0 < dte /\ PrimFloat.is_nan iv = false /\ PrimFloat.ltb 0%float iv = true /\
    PrimFloat.leb 0.8%float (PrimFloat.div k spot) = true /\
    PrimFloat.leb (PrimFloat.div k spot) 1.2%float = true /\
    pt = {| p_strike := k; p_moneyness := py_round4 (PrimFloat.div k spot);
            p_dte := dte; p_iv := py_round4 iv; p_type := ty |}.
Proof.
  unfold quote_point, emits. split.
  - destruct (strike r) as [k|]; [|discriminate].
    destruct (impliedVolatility r) as [iv|]; [|discriminate].
    destruct (Z.ltb_spec 0 dte) as [Hd|Hd]; [|discriminate].
    destruct (PrimFloat.is_nan iv) eqn:?; [discriminate|].
    destruct (PrimFloat.ltb 0 iv) eqn:?; [|discriminate].
    destruct (PrimFloat.leb 0.8 (PrimFloat.div k spot)) eqn:?; [|discriminate].
    destruct (PrimFloat.leb (PrimFloat.div k spot) 1.2) eqn:?; [|discriminate].
    simpl. intros [= <-]. exists k, iv. repeat split; auto.
  - intros (k & iv & -> & -> & Hd & -> & -> & -> & -> & ->).
    replace (0 <? dte) with true by (symmetry; apply Z.ltb_lt; exact Hd). reflexivity.
Qed.

End Surface.

(** ** The endpoints as loops over the retained expirations *)

Section Endpoints.

Lemma iv_surface_run t expirations spot :
  t_options t = Ok expirations -> expirations <> [] ->
  resolve_price t = Ok (Some spot) -> float_truthy spot = true ->
  iv_surface t
  = SurfaceData spot
      (flat_map (fun exp_date => exec (surface_expiration t spot exp_date) [])
                (take 6 expirations)).
Proof.
  intros Ho Hne Hp Hs. unfold iv_surface. rewrite Ho, Hp.
  destruct expirations as [|e0 rest]; [congruence|].
  unfold truthy_price. rewrite Hs. f_equal.
  rewrite exec_for_each_try by (intros; apply surface_expiration_appends).
  reflexivity.
Qed.

End Endpoints.

(** ** Claims about the IV surface *)

(** C2 (as amended).  With a truthy spot and retained expirations (the first
    six) whose dates parse and whose chains are fetched with numeric quotes,
    the surface is, snapshot by snapshot and calls before puts, the list of
    the points of the quotes; a quote has a point if and only if the
    snapshot's days to expiration are positive, its IV is not NaN and
    strictly positive, and strike / spot lies in [0.8, 1.2]; and every point
    of the surface has a stored moneyness within [0.8, 1.2] and a stored iv
    that is at least 0, being the rounding to four decimals of a strictly
    positive IV. *)
Theorem C2_surface_points (t : ticker_obj) (expirations : list string) (spot : float) :
  t_options t = Ok expirations -> expirations <> [] ->
  resolve_price t = Ok (Some spot) -> float_truthy spot = true ->
  forallb (clean_expiration t) (take 6 expirations) = true ->
  iv_surface t
  = SurfaceData spot (flat_map (expected_points t spot) (take 6 expirations))
  /\ (forall dte ty r pt,
        quote_point spot dte ty r = Some pt <->
        exists k iv,
          strike r = CNum k /\ impliedVolatility r = CNum iv /\
          0 < dte /\ PrimFloat.is_nan iv = false /\ PrimFloat.ltb 0%float iv = true /\
          PrimFloat.leb 0.8%float (PrimFloat.div k spot) = true /\
          PrimFloat.leb (PrimFloat.div k spot) 1.2%float = true /\
          pt = {| p_strike := k; p_moneyness := py_round4 (PrimFloat.div k spot);
                  p_dte := dte; p_iv := py_round4 iv; p_type := ty |})
  /\ (forall pt,
        In pt (flat_map (expected_points t spot) (take 6 expirations)) ->
        PrimFloat.leb 0.8%float (p_moneyness pt) = true /\
        PrimFloat.leb (p_moneyness pt) 1.2%float = true /\
        PrimFloat.leb 0%float (p_iv pt) = true /\
        exists iv, PrimFloat.ltb 0%float iv = true /\ p_iv pt = py_round4 iv).
Proof.
  intros Ho Hne Hp Hs Hclean. split; [|split].
  - rewrite (iv_surface_run t expirations spot Ho Hne Hp Hs). f_equal.
    rewrite forallb_forall in Hclean.
    induction (take 6 expirations) as [|e l IH]; [reflexivity|]. simpl.
    rewrite surface_expiration_clean by (auto; apply Hclean; left; reflexivity).
    rewrite IH by (intros x Hx; apply Hclean; right; exact Hx). reflexivity.
  - intros. apply quote_point_spec.
  - intros pt Hin. apply in_flat_map in Hin as (e & _ & Hin).
    unfold expected_points in Hin.
    destruct (days_to t e) as [dte|]; [|destruct Hin].
    destruct (t_option_chain t e) as [chain|]; [|destruct Hin].
    assert (Hq : exists ty r, quote_point spot dte ty r = Some pt).
    { apply in_app_or in Hin as [Hin|Hin];
        apply list_elem_of_In, list_elem_of_omap in Hin as (r & _ & Hr); eauto. }
    destruct Hq as (ty & r & Hq).
    apply quote_point_spec in Hq as (k & iv & _ & _ & _ & _ & Hiv & Hlo & Hhi & ->).
    simpl. destruct (py_round4_band _ Hlo Hhi) as [B1 B2].
    pose proof (py_round4_nonneg _ Hiv). eauto 6.
Qed.

(** C2, witness: the specification's scenario (spot 100, 30 days, calls at
    95, 100 and 105, a put at 100) yields its four points. *)
Lemma C2_surface_points_witness :
  iv_surface scenario_ticker
  = SurfaceData 100
      (flat_map (expected_points scenario_ticker 100) (take 6 ["2026-12-18"%string]))
  /\ length (flat_map (expected_points scenario_ticker 100)
                      (take 6 ["2026-12-18"%string])) = 4%nat.
Proof.
  split.
  - apply (C2_surface_points scenario_ticker ["2026-12-18"%string] 100);
      [reflexivity | discriminate | reflexivity | reflexivity | reflexivity].
  - vm_compute. reflexivity.
Defined.

(** C2, counterexample to the claim as stated: a call with IV 1e-05 passes
    [iv > 0], and the point produced for it stores [round(1e-05, 4)], which
    is 0 and not greater than 0. *)
Lemma C2_rounded_iv_not_positive :
  exists pt,
    iv_surface tiny_iv_ticker = SurfaceData 100 [pt]
    /\ PrimFloat.ltb 0%float (p_iv pt) = false
    /\ PrimFloat.eqb (p_iv pt) 0%float = true.
Proof.
  eexists. split; [vm_compute; reflexivity|]. split; reflexivity.
Qed.

(** ** Claims about the normalised chain *)

(** C1, counterexample to the claim as stated: the chain handed out for a
    call whose upstream IV is NaN carries the number 0 as its implied
    volatility, equal ([==]) to the 0.0 of a quote that reports 0% IV. *)
Lemma C1_missing_iv_reported_as_zero :
  math_isnan (impliedVolatility (plain_row 100 nan)) = Ok true
  /\ exists entry q,
       options nan_iv_ticker = OptionsData ["2026-12-18"%string] [entry]
       /\ c_calls entry = [q]
       /\ q_impliedVolatility q = PyInt 0
       /\ pynum_eqb (q_impliedVolatility q) (PyFloat 0%float) = true.
Proof.
  split; [reflexivity|]. do 2 eexists.
  split; [vm_compute; reflexivity|]. repeat split.
Qed.

(** C1 (as amended).  For every quote whose upstream IV is NaN, the
    normalised quote carries the number 0 as its implied volatility -- the
    same number as a reported 0% IV, and not greater than 0 -- and the
    surface loop appends no point for it. *)
Theorem C1_missing_iv_normalised_to_zero (r : row) :
  math_isnan (impliedVolatility r) = Ok true ->
  float_or_0 (impliedVolatility r) = Ok (PyInt 0)
  /\ (forall data data',
        quote_of_row r data = (Ok tt, data') ->
        exists q, data' = data ++ [q] /\ q_impliedVolatility q = PyInt 0)
  /\ pynum_eqb (PyInt 0) (PyFloat 0%float) = true
  /\ pynum_gt0 (PyInt 0) = false
  /\ (forall spot dte ty s, exec (surface_row spot dte ty r) s = s).
Proof.
  intros Hnan. split; [|split; [|split; [|split]]].
  - unfold float_or_0. rewrite Hnan. reflexivity.
  - intros data data'. unfold quote_of_row, bind, lift, append.
    assert (Hiv : float_or_0 (impliedVolatility r) = Ok (PyInt 0))
      by (unfold float_or_0; rewrite Hnan; reflexivity).
    rewrite Hiv.
    destruct (py_float (strike r)); [|discriminate].
    destruct (float_or_0 (lastPrice r)); [|discriminate].
    destruct (float_or_0 (bid r)); [|discriminate].
    destruct (float_or_0 (ask r)); [|discriminate].
    destruct (int_or_0 (volume r)); [|discriminate].
    destruct (int_or_0 (openInterest r)); [|discriminate].
    intros [= <-]. eexists. split; reflexivity.
  - reflexivity.
  - reflexivity.
  - intros spot dte ty s. unfold exec, surface_row, bind, lift.
    rewrite Hnan.
    destruct (py_float (strike r)) as [k|]; [|reflexivity]. simpl.
    destruct (py_truediv k spot) as [m|]; [|reflexivity].
    unfold in_band_with_iv. change (PrimFloat.ltb 0 0) with false.
    rewrite andb_false_r. reflexivity.
Qed.

(** C1, witness: a call at strike 100 whose IV is NaN. *)
Lemma C1_missing_iv_normalised_to_zero_witness :
  float_or_0 (impliedVolatility (plain_row 100 nan)) = Ok (PyInt 0)
  /\ exec (surface_row 100 30 call (plain_row 100 nan)) [] = [].
Proof.
  destruct (C1_missing_iv_normalised_to_zero (plain_row 100 nan) eq_refl)
    as (H1 & _ & _ & _ & H5).
  split; [exact H1 | apply H5].
Defined.

(** ** Tenor buckets *)

Section Buckets.

(** The ranges are disjoint and cover the integers. *)
Lemma tenor_range_partition (dte : Z) :
  exists l0,
    In l0 tenor_labels /\ forall l, tenor_range l dte = true <-> l = l0.
Proof.
  assert (R : dte <= 10 \/ 10 < dte <= 20 \/ 20 < dte <= 45 \/ 45 < dte <= 75
              \/ 75 < dte <= 120 \/ 120 < dte) by lia.
  destruct R as [R|[R|[R|[R|[R|R]]]]];
    [exists "1W"%string | exists "2W"%string | exists "1M"%string
    | exists "2M"%string | exists "3M"%string | exists "6M"%string];
    (split; [simpl; tauto|]);
    intros l; unfold tenor_range;
    destruct (Z.leb_spec dte 10); try lia;
    destruct (Z.ltb_spec 10 dte); try lia;
    destruct (Z.leb_spec dte 20); try lia;
    destruct (Z.ltb_spec 20 dte); try lia;
    destruct (Z.leb_spec dte 45); try lia;
    destruct (Z.ltb_spec 45 dte); try lia;
    destruct (Z.leb_spec dte 75); try lia;
    destruct (Z.ltb_spec 75 dte); try lia;
    destruct (Z.leb_spec dte 120); try lia;
    destruct (Z.ltb_spec 120 dte); try lia;
    simpl;
    repeat match goal with
           | |- context [String.eqb ?x ?k] => destruct (String.eqb_spec x k) as [->|?]
           end;
    split; intros; try reflexivity; try discriminate; congruence.
Qed.

(** The [if]/[elif] chain fills the one label whose range holds the
    entry's days, if that label is still free. *)
Lemma bucket_entry_case (m : gmap string float) (e : term_entry) :
  exists l0,
    (forall l, tenor_range l (e_dte e) = true <-> l = l0)
    /\ bucket_entry m e
       = match m !! l0 with
         | None => <[l0 := e_atm_iv e]> m
         | Some _ => m
         end.
Proof.
  assert (R : e_dte e <= 10 \/ 10 < e_dte e <= 20 \/ 20 < e_dte e <= 45
              \/ 45 < e_dte e <= 75 \/ 75 < e_dte e <= 120 \/ 120 < e_dte e) by lia.
  destruct R as [R|[R|[R|[R|[R|R]]]]];
    [exists "1W"%string | exists "2W"%string | exists "1M"%string
    | exists "2M"%string | exists "3M"%string | exists "6M"%string];
    (split;
     [ intros l; unfold tenor_range | unfold bucket_entry, not_in ];
     destruct (Z.leb_spec (e_dte e) 10); try lia;
     destruct (Z.ltb_spec 10 (e_dte e)); try lia;
     destruct (Z.leb_spec (e_dte e) 20); try lia;
     destruct (Z.ltb_spec 20 (e_dte e)); try lia;
     destruct (Z.leb_spec (e_dte e) 45); try lia;
     destruct (Z.ltb_spec 45 (e_dte e)); try lia;
     destruct (Z.leb_spec (e_dte e) 75); try lia;
     destruct (Z.ltb_spec 75 (e_dte e)); try lia;
     destruct (Z.leb_spec (e_dte e) 120); try lia;
     destruct (Z.ltb_spec 120 (e_dte e)); try lia;
     simpl;
     [ repeat match goal with
              | |- context [String.eqb ?x ?k] => destruct (String.eqb_spec x k) as [->|?]
              end;
       split; intros; try reflexivity; try discriminate; congruence
     | match goal with |- context [m !! ?k] => destruct (m !! k) end; reflexivity ]).
Qed.

(** One entry changes the lookup of a label only if the label is still
    free and the entry's days fall in the label's range. *)
Lemma bucket_entry_lookup (m : gmap string float) (e : term_entry) (label : string) :
  bucket_entry m e !! label
  = match m !! label with
    | Some v => Some v
    | None => if tenor_range label (e_dte e) then Some (e_atm_iv e) else None
    end.
Proof.
  destruct (bucket_entry_case m e) as (l0 & Hiff & ->).
  destruct (decide (label = l0)) as [->|Hne].
  - replace (tenor_range l0 (e_dte e)) with true by (symmetry; apply Hiff; reflexivity).
    destruct (m !! l0) eqn:E; [rewrite E; reflexivity|].
    rewrite lookup_insert_eq. reflexivity.
  - replace (tenor_range label (e_dte e)) with false
      by (destruct (tenor_range label (e_dte e)) eqn:T; [apply Hiff in T; congruence | reflexivity]).
    destruct (m !! l0).
    + destruct (m !! label); reflexivity.
    + rewrite lookup_insert_ne by congruence. destruct (m !! label); reflexivity.
Qed.

Lemma fold_buckets_lookup (raw : list term_entry) (m : gmap string float) (label : string) :
  fold_left bucket_entry raw m !! label
  = match m !! label with
    | Some v => Some v
    | None => e_atm_iv <$> List.find (fun e => tenor_range label (e_dte e)) raw
    end.
Proof.
  revert m. induction raw as [|e raw IH]; intros m; simpl.
  - destruct (m !! label); reflexivity.
  - rewrite IH, bucket_entry_lookup.
    destruct (m !! label); [reflexivity|].
    destruct (tenor_range label (e_dte e)); reflexivity.
Qed.

End Buckets.

(** C3.  The six ranges partition the integers: every number of days lies
    in the range of exactly one label.  The bucket of a label holds the
    [atm_iv] of the first entry, in input order, whose days fall in the
    label's range -- later entries of the range change nothing -- and a label
    with no such entry is not a key of the mapping. *)
Theorem C3_tenor_buckets_first_wins :
  (forall dte : Z,
      exists label,
        In label tenor_labels /\ tenor_range label dte = true
        /\ forall other, tenor_range other dte = true -> other = label)
  /\ (forall (raw : list term_entry) (label : string),
        tenor_buckets raw !! label
        = e_atm_iv <$> List.find (fun e => tenor_range label (e_dte e)) raw)
  /\ (forall (raw later : list term_entry) (label : string) (first : term_entry),
        List.find (fun e => tenor_range label (e_dte e)) raw = Some first ->
        tenor_buckets (raw ++ later) !! label = Some (e_atm_iv first))
  /\ (forall (raw : list term_entry) (label : string),
        (forall e, In e raw -> tenor_range label (e_dte e) = false) ->
        tenor_buckets raw !! label = None).
Proof.
  assert (L : forall raw label,
             tenor_buckets raw !! label
             = e_atm_iv <$> List.find (fun e => tenor_range label (e_dte e)) raw).
  { intros raw label. unfold tenor_buckets. rewrite fold_buckets_lookup.
    rewrite lookup_empty. reflexivity. }
  split; [|split; [exact L|split]].
  - intros dte. destruct (tenor_range_partition dte) as (l0 & Hin & Hiff).
    exists l0. split; [exact Hin|]. split; [apply Hiff; reflexivity|].
    intros other Ho. apply Hiff. exact Ho.
  - intros raw later label first Hf. rewrite L.
    assert (F : List.find (fun e => tenor_range label (e_dte e)) (raw ++ later) = Some first).
    { clear L. induction raw as [|e raw IH]; [discriminate Hf|]. simpl in *.
      destruct (tenor_range label (e_dte e)); [exact Hf | apply IH, Hf]. }
    rewrite F. reflexivity.
  - intros raw label Hnone. rewrite L.
    assert (F : List.find (fun e => tenor_range label (e_dte e)) raw = None).
    { clear L. induction raw as [|e raw IH]; [reflexivity|]. simpl.
      rewrite (Hnone e) by (left; reflexivity). apply IH.
      intros e' He'. apply Hnone. right. exact He'. }
    rewrite F. reflexivity.
Qed.

(** ** The nearest strike *)

Section Idxmin.

Lemma scanned_step (pre : list float) (best : option (nat * float)) (x : float) :
  scanned pre best ->
  scanned (pre ++ [x])
    (if PrimFloat.is_nan x then best
     else match best with
          | None => Some (length pre, x)
          | Some (_, b) => if PrimFloat.ltb x b then Some (length pre, x) else best
          end).
Proof.
  intros Hinv.
  assert (Hlast : (pre ++ [x]) !! length pre = Some x).
  { rewrite lookup_app_r by lia. rewrite Nat.sub_diag. reflexivity. }
  assert (Hsplit : forall p y, (pre ++ [x]) !! p = Some y ->
                     ((p < length pre)%nat /\ pre !! p = Some y)
                     \/ (p = length pre /\ y = x)).
  { intros p y Hp. destruct (Nat.lt_ge_cases p (length pre)) as [Hlt|Hge].
    - left. split; [exact Hlt|]. rewrite lookup_app_l in Hp by exact Hlt. exact Hp.
    - right. rewrite lookup_app_r in Hp by exact Hge.
      destruct (p - length pre)%nat as [|k] eqn:E; simpl in Hp; [|discriminate Hp].
      split; [lia | congruence]. }
  destruct (PrimFloat.is_nan x) eqn:Hx.
  - (* NaN is skipped *)
    destruct best as [[j b]|]; simpl in *.
    + destruct Hinv as [Hj (x0 & Hx0 & Hn0 & Hmin)].
      split; [rewrite lookup_app_l by (eapply lookup_lt_Some; eauto); exact Hj|].
      exists x0. split; [rewrite lookup_app_l by (eapply lookup_lt_Some; eauto); exact Hx0|].
      split; [exact Hn0|]. intros p y Hp Hy.
      destruct (Hsplit p y Hp) as [[_ Hp']|[_ ->]]; [eauto | congruence].
    + intros p y Hp. destruct (Hsplit p y Hp) as [[_ Hp']|[_ ->]]; [eauto | exact Hx].
  - destruct best as [[j b]|]; simpl in *.
    + destruct Hinv as [Hj (x0 & Hx0 & Hn0 & Hmin)].
      assert (x0 = b) as -> by congruence.
      assert (Hjlt : (j < length pre)%nat) by (eapply lookup_lt_Some; eauto).
      destruct (PrimFloat.ltb x b) eqn:Hlt; simpl.
      * (* a strictly smaller number takes over *)
        split; [exact Hlast|]. exists x. split; [exact Hlast|]. split; [exact Hx|].
        intros p y Hp Hy. destruct (Hsplit p y Hp) as [[Hpl Hp']|[-> ->]].
        -- destruct (Hmin p y Hp' Hy) as [Hle _].
           pose proof (ltb_leb_trans _ _ _ Hlt Hle) as Hxy.
           split; [apply ltb_leb; exact Hxy | intros _; exact Hxy].
        -- split; [apply leb_refl; exact Hx | lia].
      * (* an equal or larger number does not *)
        split; [rewrite lookup_app_l by exact Hjlt; exact Hj|].
        exists b. split; [rewrite lookup_app_l by exact Hjlt; exact Hj|].
        split; [exact Hn0|]. intros p y Hp Hy.
        destruct (Hsplit p y Hp) as [[Hpl Hp']|[-> ->]]; [eauto|].
        split; [apply not_ltb_leb; assumption | lia].
    + (* the first number *)
      split; [exact Hlast|]. exists x. split; [exact Hlast|]. split; [exact Hx|].
      intros p y Hp Hy. destruct (Hsplit p y Hp) as [[Hpl Hp']|[-> ->]].
      * rewrite (Hinv p y Hp') in Hy. discriminate Hy.
      * split; [apply leb_refl; exact Hx | lia].
Qed.

Lemma idxmin_from_scanned (l pre : list float) (best : option (nat * float)) :
  scanned pre best ->
  scanned (pre ++ l) (idxmin_from best (length pre) l).
Proof.
  revert pre best. induction l as [|x l IH]; intros pre best Hinv; simpl.
  - rewrite app_nil_r. exact Hinv.
  - replace (pre ++ x :: l) with ((pre ++ [x]) ++ l) by (rewrite <- app_assoc; reflexivity).
    replace (S (length pre)) with (length (pre ++ [x])) by (rewrite length_app; simpl; lia).
    apply IH. apply scanned_step. exact Hinv.
Qed.

(** [idxmin] returns the position of the first minimum, and raises only
    when the series holds no number. *)
Lemma idxmin_spec (l : list float) :
  match idxmin l with
  | Ok i => first_minimum l i
  | Raise _ => forall p y, l !! p = Some y -> PrimFloat.is_nan y = true
  end.
Proof.
  unfold idxmin.
  pose proof (idxmin_from_scanned l [] None) as H. simpl in H.
  specialize (H ltac:(intros p y Hp; destruct p; discriminate Hp)).
  destruct (idxmin_from None 0 l) as [[i b]|]; simpl in H; [apply H | exact H].
Qed.

Lemma first_minimum_unique (l : list float) (i j : nat) :
  first_minimum l i -> first_minimum l j -> i = j.
Proof.
  intros (x & Hx & Hnx & Hi) (y & Hy & Hny & Hj).
  destruct (Nat.lt_trichotomy i j) as [Hlt|[Heq|Hgt]]; [|exact Heq|].
  - destruct (Hj i x Hx Hnx) as [_ H]. specialize (H Hlt).
    destruct (Hi j y Hy Hny) as [H' _].
    rewrite (ltb_not_leb _ _ H) in H'. discriminate H'.
  - destruct (Hi j y Hy Hny) as [_ H]. specialize (H Hgt).
    destruct (Hj i x Hx Hnx) as [H' _].
    rewrite (ltb_not_leb _ _ H) in H'. discriminate H'.
Qed.

Lemma idxmin_total (l : list float) :
  l <> [] -> (forall p y, l !! p = Some y -> PrimFloat.is_nan y = false) ->
  exists i, idxmin l = Ok i /\ first_minimum l i.
Proof.
  intros Hne Hnum. pose proof (idxmin_spec l) as H.
  destruct (idxmin l) as [i|e]; [eauto|].
  destruct l as [|x l]; [congruence|].
  specialize (Hnum 0%nat x eq_refl). rewrite (H 0%nat x eq_refl) in Hnum. discriminate Hnum.
Qed.

End Idxmin.

(** ** The term structure *)

Section TermStructure.

Lemma lookup_map {X Y : Type} (f : X -> Y) (l : list X) (i : nat) :
  map f l !! i = option_map f (l !! i).
Proof.
  revert i. induction l as [|x l IH]; intros [|i]; simpl; try reflexivity. apply IH.
Qed.

(** The boolean mask [notna & (> 0)] selects the calls with a valid,
    strictly positive IV. *)
Lemma select_valid (rows : list row) (positive : list bool) :
  elementwise cell_gt0 (map impliedVolatility rows) = Ok positive ->
  select rows (zip_with andb (map notna (map impliedVolatility rows)) positive)
  = List.filter valid_iv rows.
Proof.
  revert positive. induction rows as [|r rows IH]; intros positive H; simpl in *.
  - reflexivity.
  - unfold valid_iv at 1. destruct (impliedVolatility r) as [iv|]; simpl in H;
      (destruct (elementwise cell_gt0 (map impliedVolatility rows)) as [ps|]; [|discriminate H]);
      injection H as <-; simpl; rewrite (IH ps eq_refl).
    + destruct (negb (PrimFloat.is_nan iv) && PrimFloat.ltb 0 iv); reflexivity.
    + reflexivity.
Qed.

Lemma elementwise_gt0_numeric (rows : list row) :
  forallb numeric_quote rows = true ->
  exists positive, elementwise cell_gt0 (map impliedVolatility rows) = Ok positive.
Proof.
  induction rows as [|r rows IH]; simpl; intros H; [eauto|].
  apply andb_prop in H as [Hr Hrows]. destruct (IH Hrows) as [ps ->].
  unfold numeric_quote in Hr.
  destruct (strike r); [|discriminate Hr].
  destruct (impliedVolatility r); [|discriminate Hr]. simpl. eauto.
Qed.

(** When [series - price] succeeds, its absolute values are the distances
    of the quotes. *)
Lemma elementwise_sub_distance (spot : float) (rows : list row) (diff : list float) :
  elementwise (cell_sub spot) (map strike rows) = Ok diff ->
  map PrimFloat.abs diff = map (distance spot) rows.
Proof.
  revert diff. induction rows as [|r rows IH]; intros diff H; simpl in *.
  - injection H as <-. reflexivity.
  - unfold distance at 1. destruct (strike r) as [k|]; simpl in H;
      (destruct (elementwise (cell_sub spot) (map strike rows)) as [ds|]; [|discriminate H]);
      injection H as <-; simpl; rewrite (IH ds eq_refl); reflexivity.
Qed.

Lemma elementwise_sub_numeric (spot : float) (rows : list row) :
  forallb numeric_quote rows = true ->
  exists diff, elementwise (cell_sub spot) (map strike rows) = Ok diff.
Proof.
  induction rows as [|r rows IH]; simpl; intros H; [eauto|].
  apply andb_prop in H as [Hr Hrows]. destruct (IH Hrows) as [ds ->].
  unfold numeric_quote in Hr. destruct (strike r); [|discriminate Hr]. simpl. eauto.
Qed.

Lemma term_expiration_appends t spot exp_date :
  appends (term_expiration t spot exp_date).
Proof.
  unfold term_expiration.
  apply appends_bind; [apply appends_lift | intros dte].
  destruct (dte <=? 0); [apply appends_ret|].
  apply appends_bind; [apply appends_lift | intros chain].
  destruct (empty_frame (calls chain)); [apply appends_ret|].
  apply appends_bind; [apply appends_lift | intros positive].
  destruct (empty_frame _); [apply appends_ret|].
  repeat (apply appends_bind; [apply appends_lift | intros ?]).
  apply appends_append.
Qed.

(** Whatever the provider returns, one expiration either leaves [raw_term]
    as it is, or appends the entry of the call that is the first minimum
    of the distances among the calls with a valid, strictly positive IV. *)
Lemma term_expiration_cases t spot exp_date s :
  exec (term_expiration t spot exp_date) s = s
  \/ exists dte chain i r entry,
       days_to t exp_date = Ok dte /\ 0 < dte /\
       t_option_chain t exp_date = Ok chain /\
       List.filter valid_iv (calls chain) !! i = Some r /\
       first_minimum (map (distance spot) (List.filter valid_iv (calls chain))) i /\
       entry_of exp_date dte r = Some entry /\
       term_expiration t spot exp_date s = (Ok tt, s ++ [entry]).
Proof.
  unfold exec, term_expiration, bind, lift.
  destruct (days_to t exp_date) as [dte|] eqn:Hd; [|left; reflexivity]. simpl.
  destruct (Z.leb_spec dte 0) as [Hle|Hlt]; [left; reflexivity|].
  destruct (t_option_chain t exp_date) as [chain|] eqn:Hc; [|left; reflexivity]. simpl.
  destruct (empty_frame (calls chain)); [left; reflexivity|].
  destruct (elementwise cell_gt0 (map impliedVolatility (calls chain))) as [positive|] eqn:Hp;
    [|left; reflexivity]. simpl.
  rewrite (select_valid _ _ Hp).
  set (valid := List.filter valid_iv (calls chain)).
  destruct (empty_frame valid); [left; reflexivity|].
  destruct (elementwise (cell_sub spot) (map strike valid)) as [diff|] eqn:Hdiff;
    [|left; reflexivity]. simpl.
  rewrite (elementwise_sub_distance _ _ _ Hdiff).
  pose proof (idxmin_spec (map (distance spot) valid)) as Hmin.
  destruct (idxmin (map (distance spot) valid)) as [i|]; [|left; reflexivity]. simpl.
  unfold loc. destruct (valid !! i) as [r|] eqn:Hr; [|left; reflexivity]. simpl.
  destruct (impliedVolatility r) as [iv|] eqn:Hiv; [|left; reflexivity]. simpl.
  destruct (strike r) as [k|] eqn:Hk; [|left; reflexivity]. simpl.
  right. exists dte, chain, i, r. eexists.
  split; [reflexivity|]. split; [exact Hlt|]. split; [reflexivity|].
  split; [exact Hr|]. split; [exact Hmin|].
  split; [unfold entry_of; rewrite Hk, Hiv; reflexivity | reflexivity].
Qed.

(** With numeric quotes, at least one call with a valid IV and distances
    that are numbers, the entry is appended. *)
Lemma term_expiration_total t spot exp_date dte chain s :
  days_to t exp_date = Ok dte -> 0 < dte ->
  t_option_chain t exp_date = Ok chain ->
  forallb numeric_quote (calls chain) = true ->
  List.filter valid_iv (calls chain) <> [] ->
  (forall r, In r (List.filter valid_iv (calls chain)) ->
             PrimFloat.is_nan (distance spot r) = false) ->
  exists i r entry,
    List.filter valid_iv (calls chain) !! i = Some r /\
    first_minimum (map (distance spot) (List.filter valid_iv (calls chain))) i /\
    entry_of exp_date dte r = Some entry /\
    term_expiration t spot exp_date s = (Ok tt, s ++ [entry]).
Proof.
  intros Hd Hlt Hc Hnum Hne Hdist.
  unfold term_expiration, bind, lift. rewrite Hd. simpl.
  replace (dte <=? 0) with false by (symmetry; apply Z.leb_gt; exact Hlt).
  rewrite Hc. simpl.
  destruct (calls chain) as [|r0 rows] eqn:Hcalls; [simpl in Hne; congruence|].
  rewrite <- Hcalls in *. simpl empty_frame.
  replace (empty_frame (calls chain)) with false by (rewrite Hcalls; reflexivity).
  destruct (elementwise_gt0_numeric _ Hnum) as [positive Hp]. rewrite Hp. simpl.
  rewrite (select_valid _ _ Hp).
  set (valid := List.filter valid_iv (calls chain)) in *.
  assert (Hvnum : forallb numeric_quote valid = true).
  { apply forallb_forall. intros r Hr. apply List.filter_In in Hr as [Hr _].
    rewrite forallb_forall in Hnum. apply Hnum. exact Hr. }
  destruct valid as [|v0 vs] eqn:Hvalid; [congruence|].
  rewrite <- Hvalid in *. replace (empty_frame valid) with false by (rewrite Hvalid; reflexivity).
  destruct (elementwise_sub_numeric spot _ Hvnum) as [diff Hdiff]. rewrite Hdiff. simpl.
  rewrite (elementwise_sub_distance _ _ _ Hdiff).
  destruct (idxmin_total (map (distance spot) valid)) as (i & Hi & Hmin).
  { rewrite Hvalid. discriminate. }
  { intros p y Hp'. rewrite lookup_map in Hp'.
    destruct (valid !! p) as [r|] eqn:Hr; [|discriminate Hp'].
    injection Hp' as <-. apply Hdist. apply list_elem_of_In, list_elem_of_lookup. eauto. }
  rewrite Hi. simpl.
  destruct Hmin as (x & Hx & Hmin). rewrite lookup_map in Hx.
  destruct (valid !! i) as [r|] eqn:Hr; [|discriminate Hx].
  unfold loc. rewrite Hr. simpl.
  assert (Hrn : numeric_quote r = true).
  { rewrite forallb_forall in Hvnum. apply Hvnum.
    apply list_elem_of_In, list_elem_of_lookup. eauto. }
  unfold numeric_quote in Hrn.
  destruct (strike r) as [k|] eqn:Hk; [|discriminate Hrn].
  destruct (impliedVolatility r) as [iv|] eqn:Hiv; [|discriminate Hrn]. simpl.
  exists i, r. eexists. split; [exact Hr|]. split.
  - exists x. split; [rewrite lookup_map, Hr; exact Hx | exact Hmin].
  - split; [unfold entry_of; rewrite Hk, Hiv; reflexivity | reflexivity].
Qed.

End TermStructure.

Section TermEndpoint.

Lemma for_each_ext {S X : Type} (f g : X -> M S unit) (l : list X) (s : S) :
  (forall x s', f x s' = g x s') -> for_each f l s = for_each g l s.
Proof.
  intros H. revert s. induction l as [|x l IH]; intros s; simpl; [reflexivity|].
  unfold bind. rewrite H. destruct (g x s) as [[[]|e] s']; [apply IH | reflexivity].
Qed.

Lemma raw_term_of_flat t spot expirations :
  raw_term_of t spot expirations
  = flat_map (fun exp_date => exec (term_expiration t spot exp_date) [])
             (take 8 expirations).
Proof.
  unfold raw_term_of.
  rewrite exec_for_each_try by (intros; apply term_expiration_appends). reflexivity.
Qed.

Lemma term_structure_run t expirations spot :
  t_options t = Ok expirations -> expirations <> [] ->
  resolve_price t = Ok (Some spot) -> float_truthy spot = true ->
  term_structure t
  = TermData spot (tenor_buckets (raw_term_of t spot expirations))
             (raw_term_of t spot expirations).
Proof.
  intros Ho Hne Hp Hs. unfold term_structure. rewrite Ho, Hp.
  destruct expirations as [|e0 rest]; [congruence|].
  unfold truthy_price. rewrite Hs. reflexivity.
Qed.

Lemma term_expiration_without_puts t spot exp_date s :
  term_expiration (without_puts t) spot exp_date s = term_expiration t spot exp_date s.
Proof.
  unfold term_expiration, without_puts, bind, lift. simpl.
  destruct (days_to t exp_date) as [dte|]; [|reflexivity].
  destruct (dte <=? 0); [reflexivity|].
  destruct (t_option_chain t exp_date) as [chain|]; reflexivity.
Qed.

End TermEndpoint.

(** ** Claims about the term structure *)

(** C4.  For a live expiration whose calls are numeric quotes, with at least
    one call of valid, strictly positive IV and distances [|strike - spot|]
    that are numbers, the ATM selection appends the entry of the call [r] at
    position [i] of the valid calls such that no valid call is nearer to the
    spot than [r] and every valid call before [r] is strictly farther: the
    first call, in iteration order, that attains the minimum distance. *)
Theorem C4_atm_is_first_minimum
    (t : ticker_obj) (spot : float) (exp_date : string) (dte : Z)
    (chain : option_chain) (s : list term_entry) :
  days_to t exp_date = Ok dte -> 0 < dte ->
  t_option_chain t exp_date = Ok chain ->
  forallb numeric_quote (calls chain) = true ->
  List.filter valid_iv (calls chain) <> [] ->
  (forall r, In r (List.filter valid_iv (calls chain)) ->
             PrimFloat.is_nan (distance spot r) = false) ->
  exists i r entry,
    List.filter valid_iv (calls chain) !! i = Some r
    /\ (forall j r', List.filter valid_iv (calls chain) !! j = Some r' ->
          PrimFloat.leb (distance spot r) (distance spot r') = true
          /\ ((j < i)%nat -> PrimFloat.ltb (distance spot r) (distance spot r') = true))
    /\ entry_of exp_date dte r = Some entry
    /\ term_expiration t spot exp_date s = (Ok tt, s ++ [entry]).
Proof.
  intros Hd Hlt Hc Hnum Hne Hdist.
  destruct (term_expiration_total t spot exp_date dte chain s Hd Hlt Hc Hnum Hne Hdist)
    as (i & r & entry & Hr & (x & Hx & _ & Hmin) & He & Hrun).
  exists i, r, entry. split; [exact Hr|]. split; [|split; assumption].
  rewrite lookup_map, Hr in Hx. injection Hx as <-.
  intros j r' Hr'. apply (Hmin j (distance spot r')).
  - rewrite lookup_map, Hr'. reflexivity.
  - apply Hdist. apply list_elem_of_In, list_elem_of_lookup. eauto.
Qed.

(** C4, witness: calls at 99 and 101 with the spot at 100. *)
Lemma C4_atm_is_first_minimum_witness :
  exists i r entry,
    List.filter valid_iv [plain_row 99 0.22; plain_row 101 0.19] !! i = Some r
    /\ (forall j r',
          List.filter valid_iv [plain_row 99 0.22; plain_row 101 0.19] !! j = Some r' ->
          PrimFloat.leb (distance 100 r) (distance 100 r') = true
          /\ ((j < i)%nat -> PrimFloat.ltb (distance 100 r) (distance 100 r') = true))
    /\ entry_of "2026-12-18" 30 r = Some entry
    /\ term_expiration tie_ticker 100 "2026-12-18" [] = (Ok tt, [] ++ [entry]).
Proof.
  apply (C4_atm_is_first_minimum tie_ticker 100 "2026-12-18" 30
           {| calls := [plain_row 99 0.22; plain_row 101 0.19]; puts := [] |} []).
  - reflexivity.
  - lia.
  - reflexivity.
  - reflexivity.
  - vm_compute. discriminate.
  - intros r Hr. vm_compute in Hr. destruct Hr as [<-|[<-|[]]]; reflexivity.
Defined.

(** On the tie the call met first is selected, in either order. *)
Example tie_selects_first_call :
  map e_atm_strike (exec (term_expiration tie_ticker 100 "2026-12-18") []) = [99%float]
  /\ idxmin (map (distance 100) [plain_row 101 0.19; plain_row 99 0.22]) = Ok 0%nat.
Proof. split; vm_compute; reflexivity. Qed.

(** C5.  Whatever the provider returns for an expiration, the loop body
    either appends nothing or appends the entry read from one of that
    snapshot's calls whose IV is valid and strictly positive; it appends
    nothing when no call has such an IV; and the puts are never consulted:
    stripping every chain of its puts changes neither the body's result nor
    the response of the endpoint. *)
Theorem C5_entry_only_from_valid_calls
    (t : ticker_obj) (spot : float) (exp_date : string) (s : list term_entry) :
  (exec (term_expiration t spot exp_date) s = s
   \/ exists dte chain r entry,
        days_to t exp_date = Ok dte /\ t_option_chain t exp_date = Ok chain
        /\ In r (calls chain) /\ valid_iv r = true
        /\ entry_of exp_date dte r = Some entry
        /\ exec (term_expiration t spot exp_date) s = s ++ [entry])
  /\ (forall chain,
        t_option_chain t exp_date = Ok chain ->
        (forall r, In r (calls chain) -> valid_iv r = false) ->
        exec (term_expiration t spot exp_date) s = s)
  /\ term_expiration (without_puts t) spot exp_date s = term_expiration t spot exp_date s
  /\ term_structure (without_puts t) = term_structure t.
Proof.
  assert (Hcases :
    exec (term_expiration t spot exp_date) s = s
    \/ exists dte chain r entry,
         days_to t exp_date = Ok dte /\ t_option_chain t exp_date = Ok chain
         /\ In r (calls chain) /\ valid_iv r = true
         /\ entry_of exp_date dte r = Some entry
         /\ exec (term_expiration t spot exp_date) s = s ++ [entry]).
  { destruct (term_expiration_cases t spot exp_date s)
      as [H|(dte & chain & i & r & entry & Hd & _ & Hc & Hr & _ & He & Hrun)];
      [left; exact H|].
    right. exists dte, chain, r, entry.
    assert (Hin : In r (List.filter valid_iv (calls chain))).
    { apply list_elem_of_In, list_elem_of_lookup. eauto. }
    apply List.filter_In in Hin as [Hin Hv].
    repeat (split; [assumption|]). unfold exec. rewrite Hrun. reflexivity. }
  split; [exact Hcases|]. split; [|split].
  - intros chain Hc Hnone.
    destruct Hcases as [H|(dte & chain' & r & entry & _ & Hc' & Hin & Hv & _)]; [exact H|].
    rewrite Hc in Hc'. injection Hc' as <-. rewrite (Hnone r Hin) in Hv. discriminate Hv.
  - apply term_expiration_without_puts.
  - unfold term_structure. change (t_options (without_puts t)) with (t_options t).
    change (resolve_price (without_puts t)) with (resolve_price t).
    destruct (t_options t) as [[|e0 rest]|]; try reflexivity.
    destruct (resolve_price t) as [price|]; [|reflexivity].
    destruct (truthy_price price) as [spot'|]; [|reflexivity].
    assert (R : raw_term_of (without_puts t) spot' (e0 :: rest)
                = raw_term_of t spot' (e0 :: rest)).
    { unfold raw_term_of, exec. f_equal. apply for_each_ext. intros x s'.
      unfold try_continue. rewrite term_expiration_without_puts. reflexivity. }
    rewrite R. reflexivity.
Qed.

(** ** Expired snapshots *)

Section Retained.
Context {A X : Type}.

(** An item whose body appends nothing can be dropped from the loop. *)
Lemma exec_loop_drop (body : X -> M (list A) unit) (l1 l2 : list X) (x : X) (s : list A) :
  (forall y, appends (body y)) -> exec (body x) [] = [] ->
  exec (for_each (fun y => try_continue (body y)) (l1 ++ x :: l2)) s
  = exec (for_each (fun y => try_continue (body y)) (l1 ++ l2)) s.
Proof.
  intros Hb Hx. rewrite !exec_for_each_try by exact Hb.
  rewrite !flat_map_app. simpl. rewrite Hx. reflexivity.
Qed.

(** An item of the loop contributes what its body appends, between the
    contributions of the items before and after it. *)
Lemma exec_loop_split (body : X -> M (list A) unit) (l1 l2 : list X) (x : X) :
  (forall y, appends (body y)) ->
  exec (for_each (fun y => try_continue (body y)) (l1 ++ x :: l2)) []
  = exec (for_each (fun y => try_continue (body y)) l1) []
    ++ exec (body x) []
    ++ exec (for_each (fun y => try_continue (body y)) l2) [].
Proof.
  intros Hb. rewrite !exec_for_each_try by exact Hb.
  rewrite flat_map_app. reflexivity.
Qed.

End Retained.

(** Cells that are [None] do not abort the selection: the call without an
    IV is filtered out, the call without a strike has no distance and is
    passed over by [idxmin], and the entry is read from the call at 101. *)
Example none_cells_passed_over :
  List.filter valid_iv
    [object_row (CNum 100) CNone; object_row CNone (CNum 0.3); plain_row 101 0.2]
  = [object_row CNone (CNum 0.3); plain_row 101 0.2]
  /\ idxmin (map (distance 100) [object_row CNone (CNum 0.3); plain_row 101 0.2])
     = Ok 1%nat
  /\ exec (term_expiration none_cells_ticker 100 "2026-12-18") []
     = [{| e_expiration := "2026-12-18"; e_dte := 30;
           e_atm_iv := 0.2; e_atm_strike := 101 |}].
Proof. repeat split; vm_compute; reflexivity. Qed.

(** C6.  An expiration whose days to expiration are zero or negative makes
    both loop bodies return at once: no point and no entry is appended, and
    the surface, the raw entries and the tenor buckets computed from a
    sequence of expirations are those computed without it. *)
Theorem C6_expired_snapshot_contributes_nothing
    (t : ticker_obj) (spot : float) (exp_date : string) (dte : Z) :
  days_to t exp_date = Ok dte -> dte <= 0 ->
  (forall s, surface_expiration t spot exp_date s = (Ok tt, s))
  /\ (forall s, term_expiration t spot exp_date s = (Ok tt, s))
  /\ (forall before after s,
        exec (for_each (fun e => try_continue (surface_expiration t spot e))
                       (before ++ exp_date :: after)) s
        = exec (for_each (fun e => try_continue (surface_expiration t spot e))
                         (before ++ after)) s)
  /\ (forall before after s,
        exec (for_each (fun e => try_continue (term_expiration t spot e))
                       (before ++ exp_date :: after)) s
        = exec (for_each (fun e => try_continue (term_expiration t spot e))
                         (before ++ after)) s)
  /\ (forall before after,
        tenor_buckets
          (exec (for_each (fun e => try_continue (term_expiration t spot e))
                          (before ++ exp_date :: after)) [])
        = tenor_buckets
            (exec (for_each (fun e => try_continue (term_expiration t spot e))
                            (before ++ after)) [])).
Proof.
  intros Hd Hle.
  assert (Hs : forall s, surface_expiration t spot exp_date s = (Ok tt, s)).
  { intros s. unfold surface_expiration, bind, lift. rewrite Hd. simpl.
    replace (dte <=? 0) with true by (symmetry; apply Z.leb_le; exact Hle). reflexivity. }
  assert (Ht : forall s, term_expiration t spot exp_date s = (Ok tt, s)).
  { intros s. unfold term_expiration, bind, lift. rewrite Hd. simpl.
    replace (dte <=? 0) with true by (symmetry; apply Z.leb_le; exact Hle). reflexivity. }
  assert (Hts : forall before after s,
             exec (for_each (fun e => try_continue (term_expiration t spot e))
                            (before ++ exp_date :: after)) s
             = exec (for_each (fun e => try_continue (term_expiration t spot e))
                              (before ++ after)) s).
  { intros. apply exec_loop_drop; [intros; apply term_expiration_appends|].
    unfold exec. rewrite Ht. reflexivity. }
  repeat split; auto.
  - intros. apply exec_loop_drop; [intros; apply surface_expiration_appends|].
    unfold exec. rewrite Hs. reflexivity.
  - intros. rewrite Hts. reflexivity.
Qed.

(** C6, witness: an expiration that expires today ([dte] = 0). *)
Lemma C6_expired_snapshot_contributes_nothing_witness :
  iv_surface expired_ticker = SurfaceData 100 []
  /\ term_structure expired_ticker = TermData 100 ∅ []
  /\ surface_expiration expired_ticker 100 "2026-12-18" [] = (Ok tt, []).
Proof.
  split; [vm_compute; reflexivity|]. split; [reflexivity|].
  destruct (C6_expired_snapshot_contributes_nothing expired_ticker 100 "2026-12-18" 0
              eq_refl ltac:(lia)) as (H & _).
  apply H.
Defined.

(** ** The band and the nearest strike *)

(** C7.  A call whose moneyness lies outside [0.8, 1.2] appends no point
    to the surface, and the same call is the one read for the term-structure
    entry whenever it is the nearest to the spot among the calls with a
    valid, strictly positive IV (first on ties). *)
Theorem C7_band_filter_and_atm_independent
    (t : ticker_obj) (spot : float) (exp_date : string) (dte : Z)
    (chain : option_chain) (i : nat) (r : row) (k iv : float)
    (surface : list surface_point) (raw_term : list term_entry) :
  days_to t exp_date = Ok dte -> 0 < dte ->
  t_option_chain t exp_date = Ok chain ->
  float_truthy spot = true ->
  forallb numeric_quote (calls chain) = true ->
  (forall r', In r' (List.filter valid_iv (calls chain)) ->
              PrimFloat.is_nan (distance spot r') = false) ->
  List.filter valid_iv (calls chain) !! i = Some r ->
  strike r = CNum k -> impliedVolatility r = CNum iv ->
  (forall j r', List.filter valid_iv (calls chain) !! j = Some r' ->
      PrimFloat.leb (distance spot r) (distance spot r') = true
      /\ ((j < i)%nat -> PrimFloat.ltb (distance spot r) (distance spot r') = true)) ->
  PrimFloat.leb 0.8%float (PrimFloat.div k spot)
    && PrimFloat.leb (PrimFloat.div k spot) 1.2%float = false ->
  surface_row spot dte call r surface = (Ok tt, surface)
  /\ term_expiration t spot exp_date raw_term
     = (Ok tt, raw_term ++ [{| e_expiration := exp_date; e_dte := dte;
                               e_atm_iv := py_round4 iv; e_atm_strike := k |}]).
Proof.
  intros Hd Hlt Hc Hs Hnum Hdist Hr Hk Hiv Hnear Hband.
  assert (Hin : In r (List.filter valid_iv (calls chain))).
  { apply list_elem_of_In, list_elem_of_lookup. eauto. }
  split.
  - assert (Hrn : numeric_quote r = true) by (unfold numeric_quote; rewrite Hk, Hiv; reflexivity).
    rewrite (surface_row_numeric spot dte call r surface Hs Hlt Hrn).
    unfold quote_point, emits. rewrite Hk, Hiv.
    rewrite <- !andb_assoc, Hband, !andb_false_r. simpl. rewrite app_nil_r. reflexivity.
  - assert (Hne : List.filter valid_iv (calls chain) <> []).
    { intros E. rewrite E in Hin. destruct Hin. }
    destruct (term_expiration_total t spot exp_date dte chain raw_term Hd Hlt Hc Hnum Hne Hdist)
      as (i' & r' & entry & Hr' & Hmin' & He & Hrun).
    assert (Hmin : first_minimum (map (distance spot) (List.filter valid_iv (calls chain))) i).
    { exists (distance spot r). split; [rewrite lookup_map, Hr; reflexivity|].
      split; [apply Hdist; exact Hin|].
      intros p y Hp _. rewrite lookup_map in Hp.
      destruct (List.filter valid_iv (calls chain) !! p) as [rp|] eqn:Hrp; [|discriminate Hp].
      injection Hp as <-. apply (Hnear p rp Hrp). }
    assert (i' = i) as -> by (eapply first_minimum_unique; eauto).
    assert (r' = r) as -> by congruence.
    unfold entry_of in He. rewrite Hk, Hiv in He. injection He as <-. exact Hrun.
Qed.

(** C7, witness: a single call at strike 150 with the spot at 100
    (moneyness 1.5): no surface point, and the ATM strike is 150. *)
Lemma C7_band_filter_and_atm_independent_witness :
  surface_row 100 30 call (plain_row 150 0.3) [] = (Ok tt, [])
  /\ term_expiration far_strike_ticker 100 "2026-12-18" []
     = (Ok tt, [] ++ [{| e_expiration := "2026-12-18"; e_dte := 30;
                         e_atm_iv := py_round4 0.3; e_atm_strike := 150 |}]).
Proof.
  apply (C7_band_filter_and_atm_independent far_strike_ticker 100 "2026-12-18" 30
           {| calls := [plain_row 150 0.3]; puts := [] |} 0%nat (plain_row 150 0.3)).
  - reflexivity.
  - lia.
  - reflexivity.
  - reflexivity.
  - reflexivity.
  - intros r' Hr'. vm_compute in Hr'. destruct Hr' as [<-|[]]. reflexivity.
  - reflexivity.
  - reflexivity.
  - reflexivity.
  - intros [|j] r' Hr'; vm_compute in Hr'; [|discriminate Hr'].
    injection Hr' as <-. split; [reflexivity | lia].
  - reflexivity.
Defined.

(** ** Errors *)

(** [not price] holds exactly for [None] and for the two zeros. *)
Lemma truthy_price_falsy (price : option float) :
  truthy_price price = None <->
  price = None \/ exists p, price = Some p /\ PrimFloat.eqb p 0%float = true.
Proof.
  unfold truthy_price, float_truthy. destruct price as [p|].
  - destruct (PrimFloat.eqb p 0) eqn:E; simpl; split.
    + intros _. right. eauto.
    + reflexivity.
    + discriminate.
    + intros [H|(q & [= <-] & H)]; congruence.
  - split; auto.
Qed.

(** C8, counterexample to the claim as stated: two tickers whose spot
    cannot be determined and whose answers are not the "cannot determine
    spot" result.  With no expirations and no price, both endpoints answer
    "No options data" before the price is looked at.  With expirations at
    hand and both price sources raising, both endpoints answer 500 with the
    exception of the history: a body with neither surface nor mapping. *)
Lemma C8_spot_undetermined_other_answers :
  (t_options no_data_ticker = Ok []
   /\ resolve_price no_data_ticker = Ok None
   /\ iv_surface no_data_ticker = SurfaceError "No options data"
   /\ term_structure no_data_ticker = TermError "No options data")
  /\ (t_options failing_price_ticker = Ok ["2026-12-18"%string]
      /\ resolve_price failing_price_ticker = Raise (ProviderError "history")
      /\ iv_surface failing_price_ticker = SurfaceFailure (ProviderError "history")
      /\ surface_of (iv_surface failing_price_ticker) = None
      /\ term_structure failing_price_ticker = TermFailure (ProviderError "history")
      /\ term_of (term_structure failing_price_ticker) = None).
Proof. repeat split. Qed.

(** C8, as amended.  When the expirations are known and the price
    resolution ends with a falsy price ([None], 0.0 or -0.0), neither loop
    runs: the surface endpoint answers with the error "Cannot determine spot
    price" and an empty surface, the term-structure endpoint with the same
    error and an empty mapping, and both answers are ordinary response
    bodies. *)
Theorem C8_unresolved_spot_gives_empty_results
    (t : ticker_obj) (expirations : list string) (price : option float) :
  t_options t = Ok expirations -> expirations <> [] ->
  resolve_price t = Ok price -> truthy_price price = None ->
  iv_surface t = SurfaceError "Cannot determine spot price"
  /\ surface_of (iv_surface t) = Some []
  /\ term_structure t = TermError "Cannot determine spot price"
  /\ term_of (term_structure t) = Some (∅, []).
Proof.
  intros Ho Hne Hp Hfalsy.
  assert (Hs : iv_surface t = SurfaceError "Cannot determine spot price").
  { unfold iv_surface. rewrite Ho, Hp, Hfalsy.
    destruct expirations; [congruence | reflexivity]. }
  assert (Ht : term_structure t = TermError "Cannot determine spot price").
  { unfold term_structure. rewrite Ho, Hp, Hfalsy.
    destruct expirations; [congruence | reflexivity]. }
  rewrite Hs, Ht. repeat split.
Qed.

(** C8, witness: a ticker with options whose last price is [None]. *)
Lemma C8_unresolved_spot_gives_empty_results_witness :
  iv_surface no_spot_ticker = SurfaceError "Cannot determine spot price"
  /\ surface_of (iv_surface no_spot_ticker) = Some []
  /\ term_structure no_spot_ticker = TermError "Cannot determine spot price"
  /\ term_of (term_structure no_spot_ticker) = Some (∅, []).
Proof.
  apply (C8_unresolved_spot_gives_empty_results no_spot_ticker ["2026-12-18"%string] None);
    [reflexivity | discriminate | reflexivity | reflexivity].
Defined.

(** A price of 0.0 is falsy as well. *)
Example zero_spot_is_unresolved :
  iv_surface zero_spot_ticker = SurfaceError "Cannot determine spot price"
  /\ term_structure zero_spot_ticker = TermError "Cannot determine spot price".
Proof. split; reflexivity. Qed.

Section Isolation.

(** A raising expiration leaves [raw_term] untouched: the entry is
    appended last. *)
Lemma term_expiration_raise t spot exp_date s e :
  fst (term_expiration t spot exp_date s) = Raise e ->
  exec (term_expiration t spot exp_date) s = s.
Proof.
  intros Hraise.
  destruct (term_expiration_cases t spot exp_date s)
    as [H|(dte & chain & i & r & entry & _ & _ & _ & _ & _ & _ & Hrun)]; [exact H|].
  rewrite Hrun in Hraise. discriminate Hraise.
Qed.

(** In the term structure a failing expiration is skipped entirely. *)
Lemma term_failure_isolated t spot exp_date e before after :
  fst (term_expiration t spot exp_date []) = Raise e ->
  exec (for_each (fun x => try_continue (term_expiration t spot x))
                 (before ++ exp_date :: after)) []
  = exec (for_each (fun x => try_continue (term_expiration t spot x))
                   (before ++ after)) [].
Proof.
  intros Hraise. apply exec_loop_drop; [intros; apply term_expiration_appends|].
  apply (term_expiration_raise _ _ _ _ _ Hraise).
Qed.

(** In the surface an expiration whose date or chain cannot be obtained
    is skipped entirely. *)
Lemma surface_fetch_failure_isolated t spot exp_date before after :
  (exists e, days_to t exp_date = Raise e)
  \/ (exists e, t_option_chain t exp_date = Raise e) ->
  exec (for_each (fun x => try_continue (surface_expiration t spot x))
                 (before ++ exp_date :: after)) []
  = exec (for_each (fun x => try_continue (surface_expiration t spot x))
                   (before ++ after)) [].
Proof.
  intros Hfail. apply exec_loop_drop; [intros; apply surface_expiration_appends|].
  unfold exec, surface_expiration, bind, lift.
  destruct Hfail as [[e He]|[e He]].
  - rewrite He. reflexivity.
  - destruct (days_to t exp_date) as [dte|]; [|reflexivity]. simpl.
    destruct (dte <=? 0); [reflexivity|]. rewrite He. reflexivity.
Qed.

(** The other expirations always contribute what they contribute alone. *)
Lemma surface_others_unaffected t spot exp_date before after :
  exec (for_each (fun x => try_continue (surface_expiration t spot x))
                 (before ++ exp_date :: after)) []
  = exec (for_each (fun x => try_continue (surface_expiration t spot x)) before) []
    ++ exec (surface_expiration t spot exp_date) []
    ++ exec (for_each (fun x => try_continue (surface_expiration t spot x)) after) [].
Proof. apply exec_loop_split. intros; apply surface_expiration_appends. Qed.

End Isolation.

(** C9, the code at the failing input.  The expiration holds a good call
    and a put whose strike is not a number: its processing raises, and the
    surface nevertheless keeps the point appended for the call before the
    exception, where skipping the snapshot would leave the surface empty.
    The options endpoint, on the same chain, skips the expiration whole. *)
Theorem C9_failing_snapshot_half_emitted :
  fst (surface_expiration broken_put_ticker 100 "2026-12-18" []) = Raise TypeError
  /\ iv_surface broken_put_ticker
     = SurfaceData 100 [{| p_strike := 100; p_moneyness := 1; p_dte := 30;
                           p_iv := py_round4 0.2; p_type := call |}]
  /\ options broken_put_ticker = OptionsData ["2026-12-18"%string] [].
Proof.
  split; [vm_compute; reflexivity|]. split; vm_compute; reflexivity.
Qed.

(** ** Division by zero *)

Section NoZeroDivision.

Lemma elementwise_raise {X Y : Type} (f : X -> res Y) (l : list X) (e : exn) :
  elementwise f l = Raise e -> exists x, f x = Raise e.
Proof.
  induction l as [|x l IH]; simpl; [discriminate|].
  destruct (f x) as [y|e'] eqn:Hx; [|intros [= <-]; eauto].
  destruct (elementwise f l); [discriminate | intros [= <-]; apply IH; reflexivity].
Qed.

Lemma for_each_raise {S X : Type} (body : X -> M S unit) (l : list X) (s : S) (e : exn) :
  fst (for_each body l s) = Raise e -> exists x s', fst (body x s') = Raise e.
Proof.
  revert s. induction l as [|x l IH]; intros s; simpl; [discriminate|].
  unfold bind. destruct (body x s) as [[[]|e'] s'] eqn:Hx.
  - apply IH.
  - simpl. intros [= <-]. exists x, s. rewrite Hx. reflexivity.
Qed.

Lemma surface_row_raise spot dte ty r s e :
  float_truthy spot = true ->
  fst (surface_row spot dte ty r s) = Raise e -> e = TypeError.
Proof.
  intros Hs. unfold surface_row, bind, lift.
  destruct (strike r) as [k|]; simpl; [|intros [= <-]; reflexivity].
  destruct (impliedVolatility r) as [iv|]; simpl; [|intros [= <-]; reflexivity].
  rewrite (truthy_div k spot Hs).
  destruct (negb (PrimFloat.is_nan iv)); simpl;
    destruct (in_band_with_iv _ _); simpl; discriminate.
Qed.

End NoZeroDivision.

(** C10.  When the loops run, the spot they are given is not zero: every
    [strike / spot] of the surface is an ordinary float division, an
    expiration of the surface can end with [ZeroDivisionError] only if the
    provider raises it, and likewise for the term structure, which performs
    no division at all. *)
Theorem C10_division_by_zero_unreachable
    (t : ticker_obj) (expirations : list string) (price : option float) (spot : float) :
  t_options t = Ok expirations -> expirations <> [] ->
  resolve_price t = Ok price -> truthy_price price = Some spot ->
  PrimFloat.eqb spot 0%float = false
  /\ (forall k, py_truediv k spot = Ok (PrimFloat.div k spot))
  /\ iv_surface t
     = SurfaceData spot
         (exec (for_each (fun e => try_continue (surface_expiration t spot e))
                         (take 6 expirations)) [])
  /\ term_structure t
     = TermData spot (tenor_buckets (raw_term_of t spot expirations))
                (raw_term_of t spot expirations)
  /\ (forall exp_date surface raw_term,
        days_to t exp_date <> Raise ZeroDivisionError ->
        t_option_chain t exp_date <> Raise ZeroDivisionError ->
        fst (surface_expiration t spot exp_date surface) <> Raise ZeroDivisionError
        /\ fst (term_expiration t spot exp_date raw_term) <> Raise ZeroDivisionError).
Proof.
  intros Ho Hne Hp Htruthy.
  assert (Hprice : price = Some spot /\ float_truthy spot = true).
  { unfold truthy_price in Htruthy. destruct price as [p|]; [|discriminate Htruthy].
    destruct (float_truthy p) eqn:E; [|discriminate Htruthy].
    injection Htruthy as <-. split; [reflexivity | exact E]. }
  destruct Hprice as [-> Hs].
  split; [|split; [|split; [|split]]].
  - unfold float_truthy in Hs. destruct (PrimFloat.eqb spot 0); [discriminate Hs | reflexivity].
  - intros k. apply truthy_div. exact Hs.
  - unfold iv_surface. rewrite Ho, Hp. destruct expirations; [congruence|].
    unfold truthy_price. rewrite Hs. reflexivity.
  - apply term_structure_run; assumption.
  - intros exp_date s raw Hdays Hchain. split.
    + unfold surface_expiration, bind, lift.
      destruct (days_to t exp_date) as [dte|e] eqn:Hd; simpl; [|congruence].
      destruct (dte <=? 0); simpl; [discriminate|].
      destruct (t_option_chain t exp_date) as [chain|e] eqn:Hc; simpl; [|congruence].
      destruct (for_each (surface_row spot dte call) (calls chain) s) as [[[]|e] s'] eqn:Hcalls.
      * intros Hraise. apply for_each_raise in Hraise as (x & s'' & Hx).
        apply surface_row_raise in Hx; [discriminate Hx | exact Hs].
      * simpl. intros [= ->].
        assert (Hraise : fst (for_each (surface_row spot dte call) (calls chain) s)
                         = Raise ZeroDivisionError) by (rewrite Hcalls; reflexivity).
        apply for_each_raise in Hraise as (x & s'' & Hx).
        apply surface_row_raise in Hx; [discriminate Hx | exact Hs].
    + intros Hraise.
      destruct (term_expiration_cases t spot exp_date raw)
        as [_|(dte & chain & i & r & entry & _ & _ & _ & _ & _ & _ & Hrun)];
        [|rewrite Hrun in Hraise; discriminate Hraise].
      revert Hraise. unfold term_expiration, bind, lift.
      destruct (days_to t exp_date) as [dte|e] eqn:Hd; simpl; [|congruence].
      destruct (dte <=? 0); simpl; [discriminate|].
      destruct (t_option_chain t exp_date) as [chain|e] eqn:Hc; simpl; [|congruence].
      destruct (empty_frame (calls chain)); simpl; [discriminate|].
      destruct (elementwise cell_gt0 _) as [positive|e] eqn:Hp'; simpl.
      2:{ intros [= ->]. apply elementwise_raise in Hp' as ([f|] & Hx); discriminate Hx. }
      destruct (empty_frame _); simpl; [discriminate|].
      destruct (elementwise (cell_sub spot) _) as [diff|e] eqn:Hdiff; simpl.
      2:{ intros [= ->]. apply elementwise_raise in Hdiff as ([f|] & Hx); discriminate Hx. }
      unfold idxmin, loc.
      destruct (idxmin_from None 0 _) as [[i b]|]; simpl; [|discriminate].
      destruct (_ !! i) as [r|]; simpl; [|discriminate].
      destruct (impliedVolatility r); simpl; [|discriminate].
      destruct (strike r); simpl; discriminate.
Qed.

(** C10, witness: the specification's scenario, spot 100. *)
Lemma C10_division_by_zero_unreachable_witness :
  PrimFloat.eqb 100 0%float = false
  /\ (forall k, py_truediv k 100 = Ok (PrimFloat.div k 100)).
Proof.
  destruct (C10_division_by_zero_unreachable scenario_ticker ["2026-12-18"%string]
              (Some 100%float) 100 eq_refl ltac:(discriminate) eq_refl eq_refl)
    as (H1 & H2 & _).
  split; [exact H1 | exact H2].
Defined.


(** * Further properties of the endpoints *)

(** ** The ticker table *)

Section TickerTable.

Lemma upper_ascii_idem (c : Ascii.ascii) : upper_ascii (upper_ascii c) = upper_ascii c.
Proof. destruct c as [[] [] [] [] [] [] [] []]; reflexivity. Qed.

Lemma upper_idem (s : string) : upper (upper s) = upper s.
Proof.
  induction s as [|c s IH]; simpl; [reflexivity|].
  rewrite upper_ascii_idem, IH. reflexivity.
Qed.

(** The symbols of the table are upper-case and map to themselves or to
    nothing. *)
Lemma ticker_map_values (key value : string) :
  TICKER_MAP !! key = Some value ->
  upper value = value /\ default value (TICKER_MAP !! value) = value.
Proof.
  intros H. apply elem_of_list_to_map_2 in H.
  repeat (apply elem_of_cons in H as [[= -> ->]|H]; [split; reflexivity|]).
  apply elem_of_nil in H. destruct H.
Qed.

End TickerTable.

(** X1.  On an ASCII ticker the symbol mapping ignores the case of its
    argument, returns an upper-case symbol, and maps that symbol to itself:
    a symbol that was already translated is not translated again. *)
Theorem get_yf_ticker_stable (ticker : string) :
  ascii_text ticker = true ->
  get_yf_ticker (upper ticker) = get_yf_ticker ticker
  /\ upper (get_yf_ticker ticker) = get_yf_ticker ticker
  /\ get_yf_ticker (get_yf_ticker ticker) = get_yf_ticker ticker.
Proof.
  intros _. unfold get_yf_ticker. rewrite upper_idem.
  split; [reflexivity|].
  destruct (TICKER_MAP !! upper ticker) as [value|] eqn:E; simpl.
  - destruct (ticker_map_values _ _ E) as [Hu Hv]. rewrite Hu. split; [reflexivity | exact Hv].
  - rewrite upper_idem, E. split; reflexivity.
Qed.

(** X1, witness: [spx] in lower case. *)
Lemma get_yf_ticker_stable_witness :
  get_yf_ticker (upper "spx") = get_yf_ticker "spx"
  /\ upper (get_yf_ticker "spx") = get_yf_ticker "spx"
  /\ get_yf_ticker (get_yf_ticker "spx") = get_yf_ticker "spx".
Proof. apply (get_yf_ticker_stable "spx"). reflexivity. Defined.

(** ** [/api/quote] *)

(** The division by the previous close is reached only with a truthy
    divisor: the [if] block never raises. *)
Lemma quote_change_total (price prev_close : option float) :
  quote_change price prev_close
  = Ok match truthy_price price, truthy_price prev_close with
       | Some p, Some c =>
           (Some (PrimFloat.sub p c),
            Some (PrimFloat.mul (PrimFloat.div (PrimFloat.sub p c) c) 100%float))
       | _, _ => (None, None)
       end.
Proof.
  unfold quote_change.
  destruct (truthy_price price) as [p|]; [|reflexivity].
  destruct prev_close as [c|]; [|reflexivity]. simpl.
  destruct (float_truthy c) eqn:Hc; [|reflexivity].
  rewrite (truthy_div _ c Hc). reflexivity.
Qed.

(** [getattr] with the default [None] returns what the read returns,
    turns an [AttributeError] into [None] and lets any other exception
    through. *)
Lemma getattr_or_none_cases {A : Type} (read : res (option A)) :
  (exists v, read = Ok v /\ getattr_or_none read = Ok v)
  \/ (read = Raise AttributeError /\ getattr_or_none read = Ok None)
  \/ (exists e, e <> AttributeError /\ read = Raise e /\ getattr_or_none read = Raise e).
Proof.
  destruct read as [v|e]; [left; eauto|].
  destruct e; try (right; right; eexists; repeat split; discriminate).
  right; left; split; reflexivity.
Qed.

(** X2.  Whatever the provider does, [quote] answers 500 only with an
    exception the provider raised that [getattr] does not swallow: an
    exception other than [AttributeError] raised by reading [last_price],
    [previous_close] or [market_cap], or any exception of the history
    fallback, which runs when [getattr] gave [None] for the last price.  The
    division by the previous close never raises, because it is reached only
    with a truthy previous close; and in a 200 body [change] and
    [change_pct] are both present when price and previous close are both
    truthy (neither [None] nor zero), and both absent otherwise. *)
Theorem quote_change_guarded
    (provider : string -> ticker_obj * fast_info_rest) (ticker : string) :
  match quote provider ticker with
  | QuoteData yf_ticker price prev_close change change_pct _ =>
      yf_ticker = get_yf_ticker ticker
      /\ (change, change_pct)
         = match truthy_price price, truthy_price prev_close with
           | Some p, Some pc =>
               (Some (PrimFloat.sub p pc),
                Some (PrimFloat.mul (PrimFloat.div (PrimFloat.sub p pc) pc) 100%float))
           | _, _ => (None, None)
           end
  | QuoteFailure e =>
      let '(t, info) := provider (get_yf_ticker ticker) in
      (e <> AttributeError /\ t_last_price t = Raise e)
      \/ (getattr_or_none (t_last_price t) = Ok None /\ t_history_close t = Raise e)
      \/ (e <> AttributeError /\ fi_previous_close info = Raise e)
      \/ (e <> AttributeError /\ fi_market_cap info = Raise e)
  end.
Proof.
  unfold quote. destruct (provider (get_yf_ticker ticker)) as [t info].
  pose proof quote_change_total as Hchange.
  remember (getattr_or_none (t_last_price t) = Ok None) as fallback eqn:Hfallback.
  assert (Tail : forall price : option float,
    match
      match getattr_or_none (fi_previous_close info) with
      | Raise e => QuoteFailure e
      | Ok prev_close =>
          match quote_change price prev_close with
          | Raise e => QuoteFailure e
          | Ok (change, change_pct) =>
              match getattr_or_none (fi_market_cap info) with
              | Raise e => QuoteFailure e
              | Ok cap =>
                  QuoteData (get_yf_ticker ticker) price prev_close change change_pct cap
              end
          end
      end
    with
    | QuoteData yf_ticker price' prev_close change change_pct _ =>
        yf_ticker = get_yf_ticker ticker
        /\ (change, change_pct)
           = match truthy_price price', truthy_price prev_close with
             | Some p, Some pc =>
                 (Some (PrimFloat.sub p pc),
                  Some (PrimFloat.mul (PrimFloat.div (PrimFloat.sub p pc) pc) 100%float))
             | _, _ => (None, None)
             end
    | QuoteFailure e =>
        (e <> AttributeError /\ t_last_price t = Raise e)
        \/ (fallback /\ t_history_close t = Raise e)
        \/ (e <> AttributeError /\ fi_previous_close info = Raise e)
        \/ (e <> AttributeError /\ fi_market_cap info = Raise e)
    end).
  { intros price.
    destruct (getattr_or_none_cases (fi_previous_close info))
      as [(pc & _ & ->)|[(_ & ->)|(e & Hne & Hpc & ->)]];
      [| |right; right; left; split; assumption];
      rewrite Hchange;
      (match goal with
       | |- context [let (_, _) := ?x in _] => destruct x as [change pct] eqn:E
       end);
      (destruct (getattr_or_none_cases (fi_market_cap info))
         as [(cap & _ & ->)|[(_ & ->)|(e & Hne & Hcap & ->)]];
       cbv beta iota;
       [split; [reflexivity | symmetry; exact E]
       |split; [reflexivity | symmetry; exact E]
       |right; right; right; split; assumption]). }
  destruct (getattr_or_none_cases (t_last_price t))
    as [(last & Hlast & Hget)|[(Hlast & Hget)|(e & Hne & Hlast & Hget)]]; rewrite Hget.
  - destruct last as [p|]; [apply Tail|].
    destruct (t_history_close t) as [price|e]; [apply Tail|].
    right; left; split; [rewrite Hfallback; exact Hget | reflexivity].
  - destruct (t_history_close t) as [price|e]; [apply Tail|].
    right; left; split; [rewrite Hfallback; exact Hget | reflexivity].
  - left; split; assumption.
Qed.

(** The history fallback of [quote] also runs when [fast_info] has no
    attribute [last_price]: the close is reported, and a failing history is
    the 500 answer; a missing [market_cap] is reported as [None]. *)
Example quote_missing_attribute :
  (exists change change_pct,
      quote (missing_attribute_provider (Ok (Some 100%float))) "spx"
      = QuoteData "^GSPC" (Some 100%float) (Some 98%float) change change_pct None)
  /\ quote (missing_attribute_provider (Raise (ProviderError "history"))) "spx"
     = QuoteFailure (ProviderError "history").
Proof.
  split; [|reflexivity].
  unfold quote. simpl. rewrite ?quote_change_total. simpl.
  match goal with
  | |- context [let (_, _) := ?x in _] => destruct x as [change pct]
  | _ => idtac
  end.
  eauto.
Qed.

(** X3.  The endpoints do not resolve the price alike.  When
    [fast_info.last_price] is [None] and the history has a close, [quote]
    reports that close as the price, while the surface and the term
    structure of the same ticker object answer "Cannot determine spot
    price".  When reading [fast_info.last_price] raises, the other two fall
    back to the history whatever the exception, while [quote] falls back
    only on an [AttributeError] and answers 500 with any other exception. *)
Theorem price_resolution_differs
    (provider : string -> ticker_obj * fast_info_rest) (ticker : string)
    (t : ticker_obj) (info : fast_info_rest) (expirations : list string) :
  provider (get_yf_ticker ticker) = (t, info) ->
  t_options t = Ok expirations -> expirations <> [] ->
  (forall close prev_close cap,
      t_last_price t = Ok None -> t_history_close t = Ok (Some close) ->
      getattr_or_none (fi_previous_close info) = Ok prev_close ->
      getattr_or_none (fi_market_cap info) = Ok cap ->
      (exists change change_pct,
          quote provider ticker
          = QuoteData (get_yf_ticker ticker) (Some close) prev_close change change_pct cap)
      /\ iv_surface t = SurfaceError "Cannot determine spot price"
      /\ term_structure t = TermError "Cannot determine spot price")
  /\ (forall e,
        t_last_price t = Raise e ->
        resolve_price t = t_history_close t
        /\ (e <> AttributeError -> quote provider ticker = QuoteFailure e)
        /\ (e = AttributeError ->
            forall close prev_close cap,
              t_history_close t = Ok close ->
              getattr_or_none (fi_previous_close info) = Ok prev_close ->
              getattr_or_none (fi_market_cap info) = Ok cap ->
              exists change change_pct,
                quote provider ticker
                = QuoteData (get_yf_ticker ticker) close prev_close change change_pct cap)).
Proof.
  intros Hprov Ho Hne. split.
  - intros close prev_close cap Hlast Hhist Hpc Hcap.
    assert (Hres : resolve_price t = Ok None) by (unfold resolve_price; rewrite Hlast; reflexivity).
    split; [|split].
    + unfold quote. rewrite Hprov, Hlast. simpl.
      rewrite Hhist, Hpc, quote_change_total, Hcap.
      match goal with
      | |- context [let (_, _) := ?x in _] => destruct x as [change pct]
      end.
      eauto.
    + unfold iv_surface. rewrite Ho, Hres. destruct expirations; [congruence | reflexivity].
    + unfold term_structure. rewrite Ho, Hres. destruct expirations; [congruence | reflexivity].
  - intros e Hlast. split; [|split].
    + unfold resolve_price. rewrite Hlast. reflexivity.
    + intros Hattr. unfold quote. rewrite Hprov, Hlast.
      destruct e; try reflexivity. congruence.
    + intros -> close prev_close cap Hhist Hpc Hcap.
      unfold quote. rewrite Hprov, Hlast. simpl.
      rewrite Hhist, Hpc, quote_change_total, Hcap.
      match goal with
      | |- context [let (_, _) := ?x in _] => destruct x as [change pct]
      end.
      eauto.
Qed.

(** X3, witness: no last price, a close of 100 in the history. *)
Lemma price_resolution_differs_witness :
  (exists change change_pct,
      quote history_only_provider "SPY"
      = QuoteData (get_yf_ticker "SPY") (Some 100%float) (Some 98%float)
                  change change_pct None)
  /\ iv_surface history_only_ticker = SurfaceError "Cannot determine spot price"
  /\ term_structure history_only_ticker = TermError "Cannot determine spot price".
Proof.
  destruct (price_resolution_differs history_only_provider "SPY" history_only_ticker
              {| fi_previous_close := Ok (Some 98%float); fi_market_cap := Ok None |}
              ["2026-12-18"%string] eq_refl eq_refl ltac:(discriminate)) as [H _].
  apply (H 100%float (Some 98%float) None); reflexivity.
Defined.

(** ** [/api/options] *)

Section OptionsLoop.

Lemma float_or_0_plain (c : cell) (x : pynum) :
  float_or_0 c = Ok x -> plain_number x = true.
Proof.
  unfold float_or_0. destruct c as [f|]; simpl; [|discriminate].
  destruct (PrimFloat.is_nan f) eqn:E; intros [= <-]; simpl; [reflexivity|].
  rewrite E. reflexivity.
Qed.

Lemma int_or_0_int (c : cell) (x : pynum) :
  int_or_0 c = Ok x -> is_int x = true.
Proof.
  unfold int_or_0. destruct c as [f|]; simpl; [|discriminate].
  destruct (PrimFloat.is_nan f); [intros [= <-]; reflexivity|].
  destruct (py_int_of_float f); [intros [= <-]; reflexivity | discriminate].
Qed.

(** A row either raises and leaves the list alone, or appends one clean
    quote. *)
Lemma quote_of_row_cases (r : row) (data : list option_quote) :
  (exists e, quote_of_row r data = (Raise e, data))
  \/ exists q, quote_of_row r data = (Ok tt, data ++ [q]) /\ clean_quote q = true.
Proof.
  unfold quote_of_row, bind, lift, append.
  destruct (py_float (strike r)) as [k|e]; [|left; eauto].
  destruct (float_or_0 (lastPrice r)) as [lp|e] eqn:H1; [|left; eauto].
  destruct (float_or_0 (bid r)) as [b|e] eqn:H2; [|left; eauto].
  destruct (float_or_0 (ask r)) as [a|e] eqn:H3; [|left; eauto].
  destruct (int_or_0 (volume r)) as [v|e] eqn:H4; [|left; eauto].
  destruct (int_or_0 (openInterest r)) as [oi|e] eqn:H5; [|left; eauto].
  destruct (float_or_0 (impliedVolatility r)) as [iv|e] eqn:H6; [|left; eauto].
  right. eexists. split; [reflexivity|]. unfold clean_quote. simpl.
  rewrite (float_or_0_plain _ _ H1), (float_or_0_plain _ _ H2), (float_or_0_plain _ _ H3),
    (int_or_0_int _ _ H4), (int_or_0_int _ _ H5), (float_or_0_plain _ _ H6). reflexivity.
Qed.

(** A completed block of rows holds one clean quote per row. *)
Lemma fill_quotes (rows : list row) (data : list option_quote) :
  fill (for_each quote_of_row rows) = Ok data ->
  length data = length rows /\ Forall (fun q => clean_quote q = true) data.
Proof.
  unfold fill.
  assert (G : forall acc r' data',
             for_each quote_of_row rows acc = (r', data') ->
             r' = Ok tt ->
             exists qs, data' = acc ++ qs /\ length qs = length rows
                        /\ Forall (fun q => clean_quote q = true) qs).
  { induction rows as [|r rows IH]; intros acc r' data' H Hok; simpl in H.
    - injection H as <- <-. exists []. rewrite app_nil_r. auto.
    - unfold bind in H.
      destruct (quote_of_row_cases r acc) as [[e He]|(q & Hq & Hclean)].
      + rewrite He in H. injection H as <- <-. discriminate Hok.
      + rewrite Hq in H. destruct (IH _ _ _ H Hok) as (qs & -> & Hlen & Hall).
        exists (q :: qs). rewrite <- app_assoc. simpl. auto. }
  destruct (for_each quote_of_row rows []) as [[[]|e] data'] eqn:E; [|discriminate].
  intros [= <-]. destruct (G _ _ _ E eq_refl) as (qs & -> & Hlen & Hall). auto.
Qed.

Lemma options_expiration_appends t exp_date : appends (options_expiration t exp_date).
Proof.
  unfold options_expiration.
  repeat (apply appends_bind; [apply appends_lift | intros ?]).
  apply appends_append.
Qed.

(** An expiration either raises and appends nothing, or appends the one
    entry of its chain. *)
Lemma options_expiration_cases t exp_date :
  (exists e, options_expiration t exp_date [] = (Raise e, []))
  \/ exists chain dte calls_data puts_data,
       t_option_chain t exp_date = Ok chain /\ days_to t exp_date = Ok dte
       /\ fill (for_each quote_of_row (calls chain)) = Ok calls_data
       /\ fill (for_each quote_of_row (puts chain)) = Ok puts_data
       /\ options_expiration t exp_date []
          = (Ok tt, [{| c_expiration := exp_date; c_dte := dte;
                        c_calls := calls_data; c_puts := puts_data |}]).
Proof.
  unfold options_expiration, bind, lift, append.
  destruct (t_option_chain t exp_date) as [chain|e]; [|left; eauto].
  destruct (fill (for_each quote_of_row (calls chain))) as [cs|e] eqn:Hcs; [|left; eauto].
  destruct (fill (for_each quote_of_row (puts chain))) as [ps|e] eqn:Hps; [|left; eauto].
  destruct (days_to t exp_date) as [dte|e]; [|left; eauto].
  right. exists chain, dte, cs, ps. repeat split; assumption || reflexivity.
Qed.

Lemma options_run t expirations :
  t_options t = Ok expirations -> expirations <> [] ->
  options t
  = OptionsData (take 8 expirations)
      (flat_map (fun exp_date => exec (options_expiration t exp_date) [])
                (take 4 expirations)).
Proof.
  intros Ho Hne. unfold options. rewrite Ho.
  destruct expirations as [|e0 rest]; [congruence|]. f_equal.
  rewrite exec_for_each_try by (intros; apply options_expiration_appends). reflexivity.
Qed.

End OptionsLoop.

(** X4.  The chains of [options] are, in order, what each of the first four
    expirations appends on its own; an expiration that raises anywhere
    (fetching the chain, a malformed row of the calls or of the puts, the
    date) appends nothing, one that does not raise appends exactly one entry
    with one quote per row; so at most four chains are returned, beside at
    most eight expiration dates. *)
Theorem options_expirations_isolated (t : ticker_obj) (expirations : list string) :
  t_options t = Ok expirations -> expirations <> [] ->
  options t
  = OptionsData (take 8 expirations)
      (flat_map (fun exp_date => exec (options_expiration t exp_date) [])
                (take 4 expirations))
  /\ (forall exp_date e,
        fst (options_expiration t exp_date []) = Raise e ->
        exec (options_expiration t exp_date) [] = [])
  /\ (forall exp_date,
        fst (options_expiration t exp_date []) = Ok tt ->
        exists chain entry,
          t_option_chain t exp_date = Ok chain
          /\ exec (options_expiration t exp_date) [] = [entry]
          /\ c_expiration entry = exp_date
          /\ days_to t exp_date = Ok (c_dte entry)
          /\ length (c_calls entry) = length (calls chain)
          /\ length (c_puts entry) = length (puts chain))
  /\ (length (flat_map (fun exp_date => exec (options_expiration t exp_date) [])
                       (take 4 expirations)) <= 4)%nat
  /\ (length (take 8 expirations) <= 8)%nat.
Proof.
  intros Ho Hne. split; [apply options_run; assumption|].
  split; [|split; [|split]].
  - intros exp_date e Hraise. unfold exec.
    destruct (options_expiration_cases t exp_date)
      as [[e' He]|(chain & dte & cs & ps & _ & _ & _ & _ & Hrun)].
    + rewrite He. reflexivity.
    + rewrite Hrun in Hraise. discriminate Hraise.
  - intros exp_date Hok. unfold exec.
    destruct (options_expiration_cases t exp_date)
      as [[e' He]|(chain & dte & cs & ps & Hc & Hd & Hcs & Hps & Hrun)].
    + rewrite He in Hok. discriminate Hok.
    + destruct (fill_quotes _ _ Hcs) as [L1 _], (fill_quotes _ _ Hps) as [L2 _].
      exists chain. eexists. rewrite Hrun. simpl.
      split; [exact Hc|]. split; [reflexivity|]. simpl. repeat split; assumption.
  - assert (L : forall l : list string,
               (length (flat_map (fun exp_date => exec (options_expiration t exp_date) []) l)
                <= length l)%nat).
    { induction l as [|x l IH]; simpl; [lia|]. rewrite length_app.
      unfold exec at 1.
      destruct (options_expiration_cases t x)
        as [[e' He]|(chain & dte & cs & ps & _ & _ & _ & _ & Hrun)].
      - rewrite He. simpl. lia.
      - rewrite Hrun. simpl. lia. }
    etransitivity; [apply L|]. rewrite length_take. lia.
  - rewrite length_take. lia.
Qed.

(** X4, witness: the scenario's single expiration gives one chain with
    three calls and one put. *)
Lemma options_expirations_isolated_witness :
  options scenario_ticker
  = OptionsData (take 8 ["2026-12-18"%string])
      (flat_map (fun exp_date => exec (options_expiration scenario_ticker exp_date) [])
                (take 4 ["2026-12-18"%string])).
Proof.
  destruct (options_expirations_isolated scenario_ticker ["2026-12-18"%string]
              eq_refl ltac:(discriminate)) as [H _].
  exact H.
Defined.

(** X5.  In every chain that [options] returns, for any provider, the
    prices and the implied volatility of every quote are plain numbers --
    the [int] 0 or a float that is not NaN -- and volume and open interest
    are [int]s: no NaN reaches these fields. *)
Theorem options_quotes_clean
    (t : ticker_obj) (expirations : list string) (chains : list chain_entry) :
  options t = OptionsData expirations chains ->
  forall entry q,
    In entry chains -> In q (c_calls entry ++ c_puts entry) -> clean_quote q = true.
Proof.
  intros Hopt entry q Hentry Hq.
  destruct (t_options t) as [[|e0 rest]|] eqn:Ho;
    [unfold options in Hopt; rewrite Ho in Hopt; discriminate Hopt
    | | unfold options in Hopt; rewrite Ho in Hopt; discriminate Hopt].
  rewrite (options_run t (e0 :: rest) Ho ltac:(discriminate)) in Hopt.
  injection Hopt as _ <-.
  change (In entry (flat_map (fun exp_date => exec (options_expiration t exp_date) [])
                             (e0 :: take 3 rest))) in Hentry.
  apply in_flat_map in Hentry as (exp_date & _ & Hentry).
  unfold exec in Hentry.
  destruct (options_expiration_cases t exp_date)
    as [[e' He]|(chain & dte & cs & ps & _ & _ & Hcs & Hps & Hrun)].
  - rewrite He in Hentry. destruct Hentry.
  - rewrite Hrun in Hentry. destruct Hentry as [<-|[]]. simpl in Hq.
    destruct (fill_quotes _ _ Hcs) as [_ F1], (fill_quotes _ _ Hps) as [_ F2].
    rewrite List.Forall_forall in F1, F2.
    apply in_app_or in Hq as [Hq|Hq]; auto.
Qed.

(** X5, witness: the call with a missing IV is returned with IV 0. *)
Lemma options_quotes_clean_witness :
  clean_quote {| q_strike := 100; q_lastPrice := PyFloat 1;
                 q_bid := PyFloat 1; q_ask := PyFloat 1;
                 q_volume := PyInt 10; q_openInterest := PyInt 25;
                 q_impliedVolatility := PyInt 0 |} = true.
Proof.
  apply (options_quotes_clean nan_iv_ticker ["2026-12-18"%string]
           [{| c_expiration := "2026-12-18"; c_dte := 30;
               c_calls := [{| q_strike := 100; q_lastPrice := PyFloat 1;
                              q_bid := PyFloat 1; q_ask := PyFloat 1;
                              q_volume := PyInt 10; q_openInterest := PyInt 25;
                              q_impliedVolatility := PyInt 0 |}];
               c_puts := [] |}]
           ltac:(vm_compute; reflexivity)
           {| c_expiration := "2026-12-18"; c_dte := 30;
              c_calls := [{| q_strike := 100; q_lastPrice := PyFloat 1;
                             q_bid := PyFloat 1; q_ask := PyFloat 1;
                             q_volume := PyInt 10; q_openInterest := PyInt 25;
                             q_impliedVolatility := PyInt 0 |}];
              c_puts := [] |}).
  - left. reflexivity.
  - left. reflexivity.
Defined.

(** ** The surface for any provider *)

Section SurfaceAnyProvider.

(** Without any assumption on the row: the loop body appends nothing, or
    the point of the quote. *)
Lemma surface_row_cases spot dte ty r s :
  0 < dte ->
  exec (surface_row spot dte ty r) s = s
  \/ exists pt, quote_point spot dte ty r = Some pt
                /\ surface_row spot dte ty r s = (Ok tt, s ++ [pt]).
Proof.
  intros Hd. unfold exec, surface_row, quote_point, emits, bind, lift.
  destruct (strike r) as [k|]; simpl; [|left; reflexivity].
  destruct (impliedVolatility r) as [iv|]; simpl; [|left; reflexivity].
  replace (0 <? dte) with true by (symmetry; apply Z.ltb_lt; exact Hd).
  destruct (PrimFloat.is_nan iv); simpl.
  - destruct (py_truediv k spot) as [m|]; simpl; [|left; reflexivity].
    unfold in_band_with_iv. change (PrimFloat.ltb 0 0) with false.
    rewrite andb_false_r. left. reflexivity.
  - unfold py_truediv. destruct (PrimFloat.eqb spot 0); simpl; [left; reflexivity|].
    unfold in_band_with_iv.
    destruct (PrimFloat.ltb 0 iv); simpl; [|rewrite andb_false_r; left; reflexivity].
    rewrite andb_true_r.
    destruct (PrimFloat.leb 0.8 (PrimFloat.div k spot) &&
              PrimFloat.leb (PrimFloat.div k spot) 1.2) eqn:B; simpl.
    + right. eexists. split; reflexivity.
    + left. reflexivity.
Qed.

(** A loop over rows appends points of those rows only, in row order. *)
Lemma surface_rows_cases spot dte ty rows s :
  0 < dte ->
  exists pts,
    exec (for_each (surface_row spot dte ty) rows) s = s ++ pts
    /\ Forall (fun pt => exists r, In r rows /\ quote_point spot dte ty r = Some pt) pts.
Proof.
  intros Hd. revert s. induction rows as [|r rows IH]; intros s; simpl.
  - exists []. unfold exec, ret. simpl. rewrite app_nil_r. auto.
  - unfold exec, bind.
    destruct (surface_row_cases spot dte ty r s Hd) as [Hs|(pt & Hq & Hrun)].
    + unfold exec in Hs.
      destruct (surface_row spot dte ty r s) as [[[]|e] s'] eqn:E; simpl in Hs; subst s'.
      * destruct (IH s) as (pts & Hpts & Hall). exists pts. split; [exact Hpts|].
        eapply Forall_impl; [exact Hall|]. intros pt (r' & Hin & Hq). eauto using in_cons.
      * exists []. simpl. rewrite app_nil_r. auto.
    + rewrite Hrun. destruct (IH (s ++ [pt])) as (pts & Hpts & Hall).
      exists (pt :: pts). unfold exec in Hpts. rewrite Hpts, <- app_assoc. split; [reflexivity|].
      constructor; [exists r; split; [left; reflexivity | exact Hq]|].
      eapply Forall_impl; [exact Hall|]. intros pt' (r' & Hin & Hq'). eauto using in_cons.
Qed.

(** One expiration appends points of its calls, then points of its puts. *)
Lemma surface_expiration_cases t spot exp_date :
  exists cs ps,
    exec (surface_expiration t spot exp_date) [] = cs ++ ps
    /\ Forall (point_of_expiration t spot exp_date call) cs
    /\ Forall (point_of_expiration t spot exp_date put) ps.
Proof.
  unfold exec, surface_expiration, bind, lift.
  destruct (days_to t exp_date) as [dte|] eqn:Hd; simpl; [|exists [], []; auto].
  destruct (Z.leb_spec dte 0) as [Hle|Hlt]; simpl; [exists [], []; auto|].
  destruct (t_option_chain t exp_date) as [chain|] eqn:Hc; simpl; [|exists [], []; auto].
  destruct (surface_rows_cases spot dte call (calls chain) [] Hlt) as (cs & Hcs & Fcs).
  assert (Fcs' : Forall (point_of_expiration t spot exp_date call) cs).
  { eapply Forall_impl; [exact Fcs|]. intros pt (r & Hin & Hq).
    exists dte, chain, r. auto. }
  unfold exec in Hcs. simpl in Hcs.
  destruct (for_each (surface_row spot dte call) (calls chain) []) as [[[]|e] s'] eqn:E;
    simpl in Hcs; subst s'.
  - destruct (surface_rows_cases spot dte put (puts chain) cs Hlt) as (ps & Hps & Fps).
    exists cs, ps. split; [exact Hps|]. split; [exact Fcs'|].
    eapply Forall_impl; [exact Fps|]. intros pt (r & Hin & Hq).
    exists dte, chain, r. auto.
  - exists cs, []. rewrite app_nil_r. auto.
Qed.

End SurfaceAnyProvider.

(** X6.  For any provider -- failing fetches and malformed rows included --
    every point of a surface response comes from one of the first six
    expirations and carries its positive days to expiration; the spot is not
    zero, the stored moneyness is the rounded [strike / spot] and lies in
    [0.8, 1.2], and the stored iv is not negative. *)
Theorem surface_point_invariant
    (t : ticker_obj) (spot : float) (surface : list surface_point) (pt : surface_point) :
  iv_surface t = SurfaceData spot surface -> In pt surface ->
  PrimFloat.eqb spot 0%float = false
  /\ 0 < p_dte pt
  /\ p_moneyness pt = py_round4 (PrimFloat.div (p_strike pt) spot)
  /\ PrimFloat.leb 0.8%float (p_moneyness pt) = true
  /\ PrimFloat.leb (p_moneyness pt) 1.2%float = true
  /\ PrimFloat.leb 0%float (p_iv pt) = true
  /\ exists expirations exp_date,
       t_options t = Ok expirations /\ In exp_date (take 6 expirations)
       /\ days_to t exp_date = Ok (p_dte pt).
Proof.
  intros Hsurf Hin.
  destruct (t_options t) as [[|e0 rest]|] eqn:Ho;
    [unfold iv_surface in Hsurf; rewrite Ho in Hsurf; discriminate Hsurf
    | | unfold iv_surface in Hsurf; rewrite Ho in Hsurf; discriminate Hsurf].
  destruct (resolve_price t) as [price|] eqn:Hp;
    [|unfold iv_surface in Hsurf; rewrite Ho, Hp in Hsurf; discriminate Hsurf].
  destruct (truthy_price price) as [spot'|] eqn:Htr;
    [|unfold iv_surface in Hsurf; rewrite Ho, Hp, Htr in Hsurf; discriminate Hsurf].
  assert (Hprice : price = Some spot' /\ float_truthy spot' = true).
  { unfold truthy_price in Htr. destruct price as [p|]; [|discriminate Htr].
    destruct (float_truthy p) eqn:E; [|discriminate Htr].
    injection Htr as <-. auto. }
  destruct Hprice as [-> Hs].
  pose proof (iv_surface_run t (e0 :: rest) spot' Ho ltac:(discriminate) Hp Hs) as Hrun0.
  remember (take 6 (e0 :: rest)) as retained eqn:Hret.
  rewrite Hrun0 in Hsurf. injection Hsurf as -> <-.
  apply in_flat_map in Hin as (exp_date & Hexp & Hin). rewrite Hret in Hexp.
  destruct (surface_expiration_cases t spot exp_date) as (cs & ps & Hrun & Fcs & Fps).
  rewrite Hrun in Hin. rewrite List.Forall_forall in Fcs, Fps.
  assert (Hpt : exists ty, point_of_expiration t spot exp_date ty pt).
  { apply in_app_or in Hin as [Hin|Hin]; eauto. }
  destruct Hpt as (ty & dte & chain & r & Hd & Hlt & _ & _ & Hq).
  apply quote_point_spec in Hq as (k & iv & _ & _ & _ & _ & Hiv & Hlo & Hhi & ->). simpl.
  destruct (py_round4_band _ Hlo Hhi) as [B1 B2].
  split; [unfold float_truthy in Hs; destruct (PrimFloat.eqb spot 0); [discriminate Hs | reflexivity]|].
  split; [exact Hlt|]. split; [reflexivity|]. split; [exact B1|]. split; [exact B2|].
  split; [apply py_round4_nonneg; exact Hiv|].
  exists (e0 :: rest), exp_date. auto.
Qed.

(** X6, witness: the first point of the scenario, the call at 95. *)
Lemma surface_point_invariant_witness :
  PrimFloat.eqb 100 0%float = false /\ 0 < 30.
Proof.
  destruct (surface_point_invariant scenario_ticker 100
              (flat_map (expected_points scenario_ticker 100) ["2026-12-18"%string])
              {| p_strike := 95; p_moneyness := py_round4 (PrimFloat.div 95 100);
                 p_dte := 30; p_iv := py_round4 0.25; p_type := call |}
              ltac:(vm_compute; reflexivity) ltac:(left; vm_compute; reflexivity))
    as (H1 & H2 & _).
  split; [exact H1 | exact H2].
Defined.

(** X7.  For any provider, when the loops run the surface is the
    concatenation, in expiration order, of what each of the first six
    expirations appends on its own, and each expiration appends points of
    its calls followed by points of its puts: a failure in one expiration
    changes nothing in what the others contribute. *)
Theorem surface_in_expiration_order
    (t : ticker_obj) (expirations : list string) (spot : float) :
  t_options t = Ok expirations -> expirations <> [] ->
  resolve_price t = Ok (Some spot) -> float_truthy spot = true ->
  iv_surface t
  = SurfaceData spot
      (flat_map (fun exp_date => exec (surface_expiration t spot exp_date) [])
                (take 6 expirations))
  /\ forall exp_date,
       exists cs ps,
         exec (surface_expiration t spot exp_date) [] = cs ++ ps
         /\ Forall (fun pt => p_type pt = call
                              /\ point_of_expiration t spot exp_date call pt) cs
         /\ Forall (fun pt => p_type pt = put
                              /\ point_of_expiration t spot exp_date put pt) ps.
Proof.
  intros Ho Hne Hp Hs. split; [apply iv_surface_run; assumption|].
  intros exp_date.
  destruct (surface_expiration_cases t spot exp_date) as (cs & ps & Hrun & Fcs & Fps).
  exists cs, ps. split; [exact Hrun|].
  split; (eapply Forall_impl; [eassumption|]); intros pt Hpt; (split; [|exact Hpt]);
    destruct Hpt as (dte & chain & r & _ & _ & _ & _ & Hq);
    apply quote_point_spec in Hq as (k & iv & _ & _ & _ & _ & _ & _ & _ & ->); reflexivity.
Qed.

(** X7, witness: the scenario. *)
Lemma surface_in_expiration_order_witness :
  iv_surface scenario_ticker
  = SurfaceData 100
      (flat_map (fun exp_date => exec (surface_expiration scenario_ticker 100 exp_date) [])
                (take 6 ["2026-12-18"%string])).
Proof.
  destruct (surface_in_expiration_order scenario_ticker ["2026-12-18"%string] 100
              eq_refl ltac:(discriminate) eq_refl eq_refl) as [H _].
  exact H.
Defined.

(** ** Truncation *)

(** X8.  The surface depends on the list of expirations only through its
    first six items, the term structure only through its first eight:
    later expirations are never fetched and cannot change either response. *)
Theorem endpoints_read_a_prefix (t : ticker_obj) (exps1 exps2 : list string) :
  exps1 <> [] -> exps2 <> [] ->
  (take 6 exps1 = take 6 exps2 ->
   iv_surface (with_options t exps1) = iv_surface (with_options t exps2))
  /\ (take 8 exps1 = take 8 exps2 ->
      term_structure (with_options t exps1) = term_structure (with_options t exps2)).
Proof.
  intros H1 H2. split; intros Htake.
  - unfold iv_surface. simpl t_options.
    change (resolve_price (with_options t exps1)) with (resolve_price t).
    change (resolve_price (with_options t exps2)) with (resolve_price t).
    destruct exps1 as [|a1 l1]; [congruence|]. destruct exps2 as [|a2 l2]; [congruence|].
    destruct (resolve_price t) as [price|]; [|reflexivity].
    destruct (truthy_price price) as [spot|]; [|reflexivity].
    rewrite Htake. reflexivity.
  - unfold term_structure, raw_term_of. simpl t_options.
    change (resolve_price (with_options t exps1)) with (resolve_price t).
    change (resolve_price (with_options t exps2)) with (resolve_price t).
    destruct exps1 as [|a1 l1]; [congruence|]. destruct exps2 as [|a2 l2]; [congruence|].
    destruct (resolve_price t) as [price|]; [|reflexivity].
    destruct (truthy_price price) as [spot|]; [|reflexivity].
    rewrite Htake. reflexivity.
Qed.

(** X8, witness: a seventh expiration changes nothing in the surface. *)
Lemma endpoints_read_a_prefix_witness :
  iv_surface (with_options scenario_ticker ["a"; "b"; "c"; "d"; "e"; "f"; "g"]%string)
  = iv_surface (with_options scenario_ticker ["a"; "b"; "c"; "d"; "e"; "f"]%string).
Proof.
  destruct (endpoints_read_a_prefix scenario_ticker
              ["a"; "b"; "c"; "d"; "e"; "f"; "g"]%string
              ["a"; "b"; "c"; "d"; "e"; "f"]%string
              ltac:(discriminate) ltac:(discriminate)) as [H _].
  apply H. reflexivity.
Defined.

(** ** A NaN spot *)

Section NanSpot.

Lemma is_nan_true (x : float) : PrimFloat.is_nan x = true -> Prim2SF x = S754_nan.
Proof.
  intros H. destruct (Prim2SF x) as [s|s| |s m e] eqn:E; try reflexivity;
    assert (N : PrimFloat.is_nan x = false)
      by (apply is_nan_Prim2SF; rewrite E; discriminate);
    rewrite N in H; discriminate H.
Qed.

Lemma nan_truthy (x : float) : PrimFloat.is_nan x = true -> float_truthy x = true.
Proof.
  intros H. unfold float_truthy. rewrite FloatAxioms.eqb_spec, (is_nan_true x H).
  reflexivity.
Qed.

Lemma div_by_nan_out_of_band (k spot : float) :
  PrimFloat.is_nan spot = true ->
  PrimFloat.leb 0.8%float (PrimFloat.div k spot) = false.
Proof.
  intros H. rewrite FloatAxioms.leb_spec, FloatAxioms.div_spec, (is_nan_true spot H).
  unfold SF64div. destruct (Prim2SF k); simpl; destruct (Prim2SF 0.8); reflexivity.
Qed.

Lemma distance_to_nan (spot : float) (r : row) :
  PrimFloat.is_nan spot = true -> PrimFloat.is_nan (distance spot r) = true.
Proof.
  intros H. unfold distance. destruct (strike r) as [k|]; [|reflexivity].
  destruct (PrimFloat.is_nan (PrimFloat.abs (PrimFloat.sub k spot))) eqn:E; [reflexivity|].
  apply is_nan_Prim2SF in E. exfalso. apply E.
  rewrite FloatAxioms.abs_spec, FloatAxioms.sub_spec, (is_nan_true spot H).
  unfold SF64sub. destruct (Prim2SF k); reflexivity.
Qed.

End NanSpot.

(** X9.  A NaN price is truthy, so it is not reported as an undetermined
    spot: the loops run, every moneyness and every distance is NaN, and both
    endpoints answer with the NaN spot and empty results, for any chains. *)
Theorem nan_spot_gives_empty_results
    (t : ticker_obj) (expirations : list string) (spot : float) :
  t_options t = Ok expirations -> expirations <> [] ->
  resolve_price t = Ok (Some spot) -> PrimFloat.is_nan spot = true ->
  iv_surface t = SurfaceData spot []
  /\ term_structure t = TermData spot ∅ [].
Proof.
  intros Ho Hne Hp Hnan. pose proof (nan_truthy spot Hnan) as Hs.
  assert (Fnil : forall (X Y : Type) (f : X -> list Y) (l : list X),
             (forall x, f x = []) -> flat_map f l = []).
  { intros X Y f l H. induction l as [|x l IH]; simpl; [|rewrite H, IH]; reflexivity. }
  split.
  - rewrite (iv_surface_run t expirations spot Ho Hne Hp Hs). f_equal.
    apply Fnil. intros exp_date.
    destruct (surface_expiration_cases t spot exp_date) as (cs & ps & -> & Fcs & Fps).
    assert (Hnone : forall ty pt, ~ point_of_expiration t spot exp_date ty pt).
    { intros ty pt (dte & chain & r & _ & _ & _ & _ & Hq).
      apply quote_point_spec in Hq as (k & iv & _ & _ & _ & _ & _ & Hlo & _).
      rewrite (div_by_nan_out_of_band k spot Hnan) in Hlo. discriminate Hlo. }
    destruct cs as [|c cs]; [|inversion Fcs; subst; exfalso; eapply Hnone; eauto].
    destruct ps as [|q ps]; [|inversion Fps; subst; exfalso; eapply Hnone; eauto].
    reflexivity.
  - rewrite (term_structure_run t expirations spot Ho Hne Hp Hs).
    assert (Hraw : raw_term_of t spot expirations = []).
    { rewrite raw_term_of_flat. apply Fnil. intros exp_date.
      destruct (term_expiration_cases t spot exp_date [])
        as [H|(dte & chain & i & r & entry & _ & _ & _ & Hr & (x & Hx & Hnx & _) & _)];
        [exact H|].
      rewrite lookup_map, Hr in Hx. injection Hx as <-.
      rewrite (distance_to_nan spot r Hnan) in Hnx. discriminate Hnx. }
    rewrite Hraw. reflexivity.
Qed.

(** X9, witness: the last price is NaN. *)
Lemma nan_spot_gives_empty_results_witness :
  iv_surface nan_spot_ticker = SurfaceData nan []
  /\ term_structure nan_spot_ticker = TermData nan ∅ [].
Proof.
  apply (nan_spot_gives_empty_results nan_spot_ticker ["2026-12-18"%string] nan);
    [reflexivity | discriminate | reflexivity | reflexivity].
Defined.

(** ** The raw term structure for any provider *)

Section RawTerm.

(** One expiration appends nothing or a single entry: that of a call with a
    valid, strictly positive IV, carrying the expiration's positive days. *)
Lemma term_contribution t spot exp_date :
  exec (term_expiration t spot exp_date) [] = []
  \/ exists dte chain r k iv,
       days_to t exp_date = Ok dte /\ 0 < dte
       /\ t_option_chain t exp_date = Ok chain /\ In r (calls chain)
       /\ strike r = CNum k /\ impliedVolatility r = CNum iv
       /\ PrimFloat.ltb 0%float iv = true
       /\ exec (term_expiration t spot exp_date) []
          = [{| e_expiration := exp_date; e_dte := dte;
                e_atm_iv := py_round4 iv; e_atm_strike := k |}].
Proof.
  destruct (term_expiration_cases t spot exp_date [])
    as [H|(dte & chain & i & r & entry & Hd & Hlt & Hc & Hr & _ & He & Hrun)];
    [left; exact H|].
  right.
  assert (Hin : In r (List.filter valid_iv (calls chain))).
  { apply list_elem_of_In, list_elem_of_lookup. eauto. }
  apply List.filter_In in Hin as [Hin Hv].
  unfold entry_of in He. unfold valid_iv in Hv.
  destruct (strike r) as [k|] eqn:Hk; [|discriminate He].
  destruct (impliedVolatility r) as [iv|] eqn:Hiv; [|discriminate He].
  injection He as <-. apply andb_prop in Hv as [_ Hpos].
  exists dte, chain, r, k, iv. unfold exec. rewrite Hrun.
  repeat split; assumption || reflexivity.
Qed.

End RawTerm.

(** X10.  For any provider, the raw entries of a term-structure response
    are at most eight, at most one per expiration and in the order of the
    first eight expirations; every entry carries the positive days of its
    expiration and an ATM IV that is not negative; and the tenor mapping of
    the response is the bucketing of exactly these entries. *)
Theorem raw_term_invariant
    (t : ticker_obj) (spot : float) (term_map : gmap string float) (raw : list term_entry) :
  term_structure t = TermData spot term_map raw ->
  term_map = tenor_buckets raw
  /\ (length raw <= 8)%nat
  /\ exists expirations,
       t_options t = Ok expirations
       /\ sublist (map e_expiration raw) (take 8 expirations)
       /\ forall entry, In entry raw ->
            0 < e_dte entry
            /\ days_to t (e_expiration entry) = Ok (e_dte entry)
            /\ PrimFloat.leb 0%float (e_atm_iv entry) = true.
Proof.
  intros Hterm.
  destruct (t_options t) as [[|e0 rest]|] eqn:Ho;
    [unfold term_structure in Hterm; rewrite Ho in Hterm; discriminate Hterm
    | | unfold term_structure in Hterm; rewrite Ho in Hterm; discriminate Hterm].
  unfold term_structure in Hterm. rewrite Ho in Hterm.
  destruct (resolve_price t) as [price|]; [|discriminate Hterm].
  destruct (truthy_price price) as [spot'|]; [|discriminate Hterm].
  injection Hterm as -> <- <-. split; [reflexivity|].
  rewrite raw_term_of_flat. remember (take 8 (e0 :: rest)) as retained eqn:Hret.
  assert (G : forall l : list string,
             sublist (map e_expiration
                        (flat_map (fun e => exec (term_expiration t spot e) []) l)) l
             /\ forall entry,
                  In entry (flat_map (fun e => exec (term_expiration t spot e) []) l) ->
                  0 < e_dte entry
                  /\ days_to t (e_expiration entry) = Ok (e_dte entry)
                  /\ PrimFloat.leb 0%float (e_atm_iv entry) = true).
  { induction l as [|x l [IH1 IH2]]; simpl.
    - split; [constructor | intros entry []].
    - destruct (term_contribution t spot x)
        as [->|(dte & chain & r & k & iv & Hd & Hlt & _ & _ & _ & _ & Hiv & ->)]; simpl.
      + split; [apply sublist_cons; exact IH1 | exact IH2].
      + split; [apply sublist_skip; exact IH1|].
        intros entry [<-|Hin]; [|apply IH2; exact Hin]. simpl.
        split; [exact Hlt|]. split; [exact Hd|]. apply py_round4_nonneg. exact Hiv. }
  destruct (G retained) as [G1 G2].
  split.
  - apply sublist_length in G1. rewrite length_map in G1.
    etransitivity; [exact G1|]. rewrite Hret, length_take. lia.
  - exists (e0 :: rest). rewrite <- Hret. auto.
Qed.

(** X10, witness: the scenario has one entry, at 30 days. *)
Lemma raw_term_invariant_witness :
  (length (raw_term_of scenario_ticker 100 ["2026-12-18"%string]) <= 8)%nat.
Proof.
  destruct (raw_term_invariant scenario_ticker 100
              (tenor_buckets (raw_term_of scenario_ticker 100 ["2026-12-18"%string]))
              (raw_term_of scenario_ticker 100 ["2026-12-18"%string]) eq_refl)
    as (_ & H & _).
  exact H.
Defined.

(** X11.  For every sequence of raw entries the tenor mapping has no key
    outside the six labels, hence at most six keys, and every value it holds
    is the ATM IV of an entry of the sequence whose days fall in the range
    of the key. *)
Theorem tenor_buckets_keys_and_values (raw : list term_entry) :
  (forall label, is_Some (tenor_buckets raw !! label) -> In label tenor_labels)
  /\ (size (tenor_buckets raw) <= 6)%nat
  /\ forall label v,
       tenor_buckets raw !! label = Some v ->
       exists entry,
         In entry raw /\ tenor_range label (e_dte entry) = true /\ v = e_atm_iv entry.
Proof.
  assert (L : forall label v,
             tenor_buckets raw !! label = Some v ->
             exists entry,
               In entry raw /\ tenor_range label (e_dte entry) = true /\ v = e_atm_iv entry).
  { intros label v. unfold tenor_buckets. rewrite fold_buckets_lookup, lookup_empty.
    destruct (List.find _ raw) as [entry|] eqn:F; [|discriminate].
    intros [= <-]. apply List.find_some in F as [Hin Hr]. eauto. }
  assert (K : forall label, is_Some (tenor_buckets raw !! label) -> In label tenor_labels).
  { intros label [v Hv]. destruct (L label v Hv) as (entry & _ & Hr & _).
    destruct (tenor_range_partition (e_dte entry)) as (l0 & Hin & Hiff).
    apply Hiff in Hr. subst l0. exact Hin. }
  split; [exact K|]. split; [|exact L].
  assert (D : dom (tenor_buckets raw) ⊆ (list_to_set tenor_labels : gset string)).
  { intros label Hl. apply elem_of_dom in Hl. apply elem_of_list_to_set.
    apply list_elem_of_In. apply K. exact Hl. }
  apply subseteq_size in D. rewrite size_dom in D.
  etransitivity; [exact D|]. vm_compute. lia.
Qed.

(** ** Server errors *)

(** X12.  A 500 answer comes from the provider's list of expirations or
    from the price resolution, never from an expiration: [options] fails
    exactly when [t.options] raises; the surface and the term structure fail
    exactly when [t.options] raises or when, with expirations at hand, both
    [fast_info.last_price] and the history fallback raise. *)
Theorem server_error_sources (t : ticker_obj) (e : exn) :
  (options t = OptionsFailure e <-> t_options t = Raise e)
  /\ (iv_surface t = SurfaceFailure e <->
      t_options t = Raise e
      \/ exists expirations e',
           t_options t = Ok expirations /\ expirations <> []
           /\ t_last_price t = Raise e' /\ t_history_close t = Raise e)
  /\ (term_structure t = TermFailure e <->
      t_options t = Raise e
      \/ exists expirations e',
           t_options t = Ok expirations /\ expirations <> []
           /\ t_last_price t = Raise e' /\ t_history_close t = Raise e).
Proof.
  assert (R : forall e0, resolve_price t = Raise e0 <->
                         exists e', t_last_price t = Raise e' /\ t_history_close t = Raise e0).
  { intros e0. unfold resolve_price. destruct (t_last_price t) as [p|e']; split.
    - discriminate.
    - intros (e'' & H & _). discriminate H.
    - intros H. eauto.
    - intros (e'' & _ & H). exact H. }
  split; [|split].
  - unfold options. destruct (t_options t) as [[|e0 rest]|e1]; split;
      try discriminate; intros [= ->]; reflexivity.
  - unfold iv_surface. destruct (t_options t) as [[|e0 rest]|e1].
    + split; [discriminate|]. intros [H|(exps & e' & [= <-] & Hne & _)]; [discriminate H | congruence].
    + destruct (resolve_price t) as [price|e2].
      * split.
        -- destruct (truthy_price price); discriminate.
        -- intros [H|(exps & e' & _ & _ & Hl & Hh)]; [discriminate H|].
           assert (X : Ok price = Raise e) by (apply R; eauto). discriminate X.
      * split.
        -- intros [= ->]. right. destruct (proj1 (R e) eq_refl) as (e' & Hl & Hh).
           exists (e0 :: rest), e'. repeat split; [discriminate | assumption..].
        -- intros [H|(exps & e' & _ & _ & Hl & Hh)]; [discriminate H|].
           assert (X : Raise e2 = Raise e) by (apply R; eauto).
           injection X as ->. reflexivity.
    + split; [intros [= ->]; left; reflexivity|].
      intros [[= ->]|(exps & e' & H & _)]; [reflexivity | discriminate H].
  - unfold term_structure. destruct (t_options t) as [[|e0 rest]|e1].
    + split; [discriminate|]. intros [H|(exps & e' & [= <-] & Hne & _)]; [discriminate H | congruence].
    + destruct (resolve_price t) as [price|e2].
      * split.
        -- destruct (truthy_price price); discriminate.
        -- intros [H|(exps & e' & _ & _ & Hl & Hh)]; [discriminate H|].
           assert (X : Ok price = Raise e) by (apply R; eauto). discriminate X.
      * split.
        -- intros [= ->]. right. destruct (proj1 (R e) eq_refl) as (e' & Hl & Hh).
           exists (e0 :: rest), e'. repeat split; [discriminate | assumption..].
        -- intros [H|(exps & e' & _ & _ & Hl & Hh)]; [discriminate H|].
           assert (X : Raise e2 = Raise e) by (apply R; eauto).
           injection X as ->. reflexivity.
    + split; [intros [= ->]; left; reflexivity|].
      intros [[= ->]|(exps & e' & H & _)]; [reflexivity | discriminate H].
Qed.
